(** * examples/compute_nav_area.py: the navigable-area exploration script

    A shallow embedding of the script's own logic: [distance_angle], the
    recursive exploration [play_env], and the [__main__] block that parses
    the options, configures the environment, runs the exploration and writes
    its results.

    Conventions of the model.
    - Python floats are modelled by the rational numbers they denote and
      arithmetic on them is exact: rounding, infinities and NaN are outside
      the model.  [np.pi] is the rational value of the binary64 constant.
      The one irrational operation of the script, [diff_pos ** 0.5], is a
      parameter ([pow_half]) of which no property is assumed.
    - The simulator (navigation mesh, contact test, velocity integration) is
      external to the script and is a parameter, the record [Simulator].
      [env.sim.robot.base_pos] and [env.sim.robot.base_rot] are modelled as
      the two mutable attributes of the robot; nothing in the script steps
      the physics, so the scene itself is static.
    - Calls into the GUI, the logger and [print], the loading of the
      configuration, the construction and reset of the environment, reading
      the file named by [--load-actions] and writing the two result files
      are assumed to succeed; of these only the construction of the
      environment and the files written are recorded.
    - The recursion of [play_env] is bounded by a fuel argument that counts
      the nesting depth of calls; running out of fuel is a separate outcome.
      The interpreter's own bound (line 70 sets the recursion limit to
      10000000) is not modelled otherwise.
    - A ghost log records, in order, the calls of [play_env], the calls of
      [integrate_transform], the poses written back to the robot and the
      entries appended to the visited list.  The log is only ever extended
      and never read by the program.
    - The helpers of the interactive player that the script keeps
      ([step_env], [get_input_vel_ctlr], [get_wrapped_prop] and
      [FreeCamHelper]) are modelled on what they read.  Dictionaries are
      association lists, a Python object is the tree of its instance
      attributes, the keyboard is a function from keys to booleans, the
      arrays of the camera helper are triples of rationals; [env.step],
      the camera transformation and the sensor readout are parameters.
      A method that mutates its object returns the new object.
      [object_copy] and the argument parser are not modelled. *)

From Stdlib Require Import QArith Qabs Qround ZArith List Bool String Lia Lqa.
From Stdlib Require Import DecimalString.
Import ListNotations.

Open Scope Q_scope.

(** ** Arithmetic *)

Module Arith.

(** [np.pi]: 0x400921FB54442D18 = 884279719003555 / 2^48. *)
Definition np_pi : Q := 884279719003555 # 281474976710656.

(** Python's [x % y] on floats, for a divisor [y] that is not zero:
    [x - y * floor(x / y)]. *)
Definition py_mod (x y : Q) : Q := x - y * inject_Z (Qfloor (x / y)).

(** [x > y] *)
Definition Qgt_bool (x y : Q) : bool := negb (Qle_bool x y).

(** lines 257-265 *)
Definition distance_angle (alpha beta : Q) : Q :=
  let phi := py_mod (Qabs (beta - alpha)) (2 * np_pi) in
  (* This is either the distance or 360 - distance *)
  if Qgt_bool phi np_pi then 2 * np_pi - phi else phi.

End Arith.

Import Arith.

(** ** Data *)

(** [mn.Vector3]; [v[0]], [v[1]], [v[2]] are [vx], [vy], [vz]. *)
Record Vector3 : Type := mkVector3 { vx : Q; vy : Q; vz : Q }.

(** [v[1] = y] on a [mn.Vector3] *)
Definition set_index1 (v : Vector3) (y : Q) : Vector3 :=
  {| vx := vx v; vy := y; vz := vz v |}.

(** The three-element list [[x, y, z]] of [vec2list]. *)
Definition list3 : Type := (Q * Q * Q)%type.

(** lines 439-440 *)
Definition vec2list (v : Vector3) : list3 := (vx v, vy v, vz v).

(** An element [[position, rotation]] of [visit_pos_rot]. *)
Definition point : Type := (list3 * Q)%type.

(** [env.sim.robot]: the base pose of the robot. *)
Record Robot : Type := mkRobot { base_pos : Vector3; base_rot : Q }.

Definition with_base_pos (p : Vector3) (r : Robot) : Robot :=
  {| base_pos := p; base_rot := base_rot r |}.

Definition with_base_rot (a : Q) (r : Robot) : Robot :=
  {| base_pos := base_pos r; base_rot := a |}.

(** The part of [env.sim] that [play_env] calls.
    - [is_navigable p]: [env.sim.pathfinder.is_navigable(p)];
    - [contact_test r]: [env.sim.contact_test(env.sim.robot.get_robot_sim_id())]
      with the robot at pose [r];
    - [ctrl_freq]: [env.sim.ctrl_freq];
    - [integrate_transform dt lin ang r]: the velocity control with linear
      velocity [lin] and angular velocity [ang] (both local) integrated for
      [dt] from the rigid state of the robot at pose [r]; the result is the
      pair of [target_rigid_state.translation] and
      [target_rigid_state.rotation.angle()]. *)
Record Simulator : Type := mkSimulator {
  is_navigable : Vector3 -> bool;
  contact_test : Robot -> bool;
  ctrl_freq : Q;
  integrate_transform : Q -> Vector3 -> Vector3 -> Robot -> Vector3 * Q
}.

(** The parsed command line (lines 444-504). *)
Record Args : Type := mkArgs {
  no_render : bool;
  save_obs : bool;
  save_obs_fname : string;
  save_actions : bool;
  save_actions_fname : string;
  save_actions_count : Z;
  play_cam_res : Z;
  skip_render_text : bool;
  same_task : bool;
  skip_task : bool;
  never_end : bool;
  add_ik : bool;
  gfx : bool;
  load_actions : option string;
  cfg : string;
  opts : list string
}.

Inductive exn : Type :=
| ImportError
| ValueError
| TypeError.

(** ** The state and the monad of [play_env] *)

(** Ghost log of one exploration. *)
Inductive event : Type :=
| Enter (level : Z) (r : Robot) (flag_distinct : bool)
| Integrate (level : Z) (linear_velocity angular_velocity : Vector3) (r : Robot)
| Moved (level : Z) (r : Robot)
| Appended (p : point).

Record state : Type := mkState {
  robot : Robot;
  visit_pos_rot : list point;
  log : list event
}.

Inductive outcome (A : Type) : Type :=
| Ret (a : A)
| Raise (e : exn)
| OutOfFuel.

Arguments Ret {A} a.
Arguments Raise {A} e.
Arguments OutOfFuel {A}.

Definition M (A : Type) : Type := state -> outcome A * state.

Definition ret {A : Type} (a : A) : M A := fun s => (Ret a, s).

Definition raise {A : Type} (e : exn) : M A := fun s => (Raise e, s).

Definition out_of_fuel {A : Type} : M A := fun s => (OutOfFuel, s).

Definition bind {A B : Type} (m : M A) (k : A -> M B) : M B :=
  fun s =>
    match m s with
    | (Ret a, s') => k a s'
    | (Raise e, s') => (Raise e, s')
    | (OutOfFuel, s') => (OutOfFuel, s')
    end.

Declare Scope py_scope.
Delimit Scope py_scope with py.
Notation "x <- m ;; k" := (bind m (fun x => k))
  (at level 61, m at next level, right associativity) : py_scope.
Notation "m ;; k" := (bind m (fun _ => k))
  (at level 61, right associativity) : py_scope.

Definition get_robot : M Robot := fun s => (Ret (robot s), s).

Definition get_visit_pos_rot : M (list point) :=
  fun s => (Ret (visit_pos_rot s), s).

Definition modify_robot (f : Robot -> Robot) : M unit :=
  fun s => (Ret tt, {| robot := f (robot s);
                       visit_pos_rot := visit_pos_rot s;
                       log := log s |}).

(** [visit_pos_rot.append(p)] *)
Definition append_point (p : point) : M unit :=
  fun s => (Ret tt, {| robot := robot s;
                       visit_pos_rot := visit_pos_rot s ++ [p];
                       log := log s ++ [Appended p] |}).

Definition emit (e : event) : M unit :=
  fun s => (Ret tt, {| robot := robot s;
                       visit_pos_rot := visit_pos_rot s;
                       log := log s ++ [e] |}).

(** A [for] loop that threads an accumulator. *)
Fixpoint for_each {A B : Type} (body : B -> A -> M B) (l : list A) (b : B)
  : M B :=
  match l with
  | [] => ret b
  | a :: l' => (b' <- body b a ;; for_each body l' b')%py
  end.

(** ** [play_env] (lines 268-414) *)

Definition DEFAULT_RENDER_STEPS_LIMIT : Z := 60.

Section PlayEnv.

(** [x ** 0.5] of the C library. *)
Variable pow_half : Q -> Q.

(** [env.sim] *)
Variable sim : Simulator.

Definition has_visited_threshold_pos : Q := 1 # 100.
Definition has_visited_threshold_rot : Q := 1 # 100.

(** lines 392-397: the position distance of a recorded point to
    [after_base_pos]. *)
Definition diff_pos_of (pos : list3) (after_base_pos : Vector3) : Q :=
  let '(p0, p1, p2) := pos in
  let '(a0, a1, a2) := vec2list after_base_pos in
  let diff_vec0 := p0 - a0 in
  let diff_vec1 := p1 - a1 in
  let diff_vec2 := p2 - a2 in
  let diff_pos := 0 in
  let diff_pos := diff_pos + diff_vec0 ^ 2 in
  let diff_pos := diff_pos + diff_vec1 ^ 2 in
  let diff_pos := diff_pos + diff_vec2 ^ 2 in
  pow_half diff_pos.

(** lines 392-402: the test of the [if] inside the scan. *)
Definition within_threshold (pt : point) (after_base_pos : Vector3)
  (after_base_rot : Q) : bool :=
  let '(pos, rot) := pt in
  let diff_pos := diff_pos_of pos after_base_pos in
  let diff_rot := distance_angle rot after_base_rot in
  Qle_bool diff_pos has_visited_threshold_pos
  && Qle_bool diff_rot has_visited_threshold_rot.

(** lines 385-404: [flag_distinct] after the scan of [visit_pos_rot]; the
    scan stops at the first recorded point within both thresholds. *)
Fixpoint scan_visited (visit : list point) (after_base_pos : Vector3)
  (after_base_rot : Q) : bool :=
  match visit with
  | [] => true
  | pt :: rest =>
      if within_threshold pt after_base_pos after_base_rot then false
      else scan_visited rest after_base_pos after_base_rot
  end.

(** line 347 *)
Definition base_actions : list (Z * Z) := [(0, 1); (1, 0)]%Z.

(** [ans += r]: adding [None] to an [int] is a [TypeError]. *)
Definition add_result (ans : Z) (r : option Z) : M Z :=
  match r with
  | Some n => ret (ans + n)%Z
  | None => raise TypeError
  end.

(** lines 349-409: the first part of one iteration of the loop over the
    base actions: the robot is put back at the pose of the function entry,
    the base action is integrated, the robot is moved to the result and the
    result is looked up in [visit_pos_rot].  Returns [flag_distinct]. *)
Definition candidate (level : Z) (before_base_pos : Vector3)
  (before_base_rot : Q) (base_action : Z * Z) : M bool :=
  (modify_robot (with_base_pos before_base_pos) ;;
   modify_robot (with_base_rot before_base_rot) ;;
   let lin_vel := (fst base_action * 10)%Z in
   let ang_vel := (snd base_action * 50)%Z in
   let linear_velocity := mkVector3 (inject_Z lin_vel) 0 0 in
   let angular_velocity := mkVector3 0 (inject_Z ang_vel) 0 in
   r <- get_robot ;;
   emit (Integrate level linear_velocity angular_velocity r) ;;
   let target_rigid_state :=
     integrate_transform sim (1 / ctrl_freq sim)
       linear_velocity angular_velocity r in
   let new_pos := fst target_rigid_state in
   let new_pos := set_index1 new_pos (vy (base_pos r)) in
   modify_robot (with_base_pos new_pos) ;;
   modify_robot (with_base_rot (snd target_rigid_state)) ;;
   r' <- get_robot ;;
   emit (Moved level r') ;;
   let after_base_pos := base_pos r' in
   let after_base_rot := base_rot r' in
   visit <- get_visit_pos_rot ;;
   let flag_distinct := scan_visited visit after_base_pos after_base_rot in
   (if flag_distinct
    then append_point (vec2list after_base_pos, after_base_rot)
    else ret tt) ;;
   ret flag_distinct)%py.

(** lines 347-412: one iteration of the loop over the base actions.
    [recurse] is the recursive call of line 410. *)
Definition trial (recurse : Z -> bool -> M (option Z))
  (level : Z) (before_base_pos : Vector3) (before_base_rot : Q)
  (ans : Z) (base_action : Z * Z) : M Z :=
  (flag_distinct <- candidate level before_base_pos before_base_rot
                      base_action ;;
   res <- recurse (level + 1)%Z flag_distinct ;;
   add_result ans res)%py.

(** lines 268-414.  [fuel] bounds the nesting depth of the calls. *)
Fixpoint play_env (fuel : nat) (args : Args) (level : Z)
  (flag_distinct : bool) {struct fuel} : M (option Z) :=
  match fuel with
  | O => out_of_fuel
  | S fuel' =>
      (r0 <- get_robot ;;
       emit (Enter level r0 flag_distinct) ;;
       let render_steps_limit :=
         if no_render args then Some DEFAULT_RENDER_STEPS_LIMIT else None in
       let update_idx := 0%Z in
       let all_arm_actions : list unit := [] in
       if save_actions args
          && (Z.of_nat (List.length all_arm_actions)
              >? save_actions_count args)%Z
       then ret None
       else if match render_steps_limit with
               | Some limit => (update_idx >? limit)%Z
               | None => false
               end
       then ret None
       else
         r <- get_robot ;;
         let before_base_pos := base_pos r in
         let before_base_rot := base_rot r in
         let is_navigable := is_navigable sim before_base_pos in
         let is_contact := contact_test sim r in
         if negb is_navigable || is_contact then ret (Some 0%Z)
         else if negb flag_distinct then ret (Some 0%Z)
         else
           ans <- for_each
                    (trial (play_env fuel' args) level
                       before_base_pos before_base_rot)
                    base_actions 1%Z ;;
           ret (Some ans))%py
  end.

(** The initial state of an exploration: lines 542-548. *)
Definition initial_state (start : Robot) : state :=
  {| robot := start;
     visit_pos_rot := [(vec2list (base_pos start), base_rot start)];
     log := [] |}.

End PlayEnv.

(** ** The [__main__] block (lines 443-572) *)

Open Scope string_scope.

Definition SAVE_NAME : string := "spot_final".
Definition DEFAULT_CFG : string :=
  "configs/tasks/rearrange/check_nav_spot.yaml".
Definition SAVE_VIDEO_DIR : string := "./data/vids".
Definition SAVE_ACTIONS_DIR : string := "./data/interactive_play_replays".

(** A node of [config.TASK.ACTIONS]. *)
Record ActionConfig : Type := mkActionConfig { ARM_CONTROLLER : string }.

(** The settings of the habitat configuration that the script reads or
    writes; field names are the dotted paths with [_] for the dots. *)
Record Config : Type := mkConfig {
  SIMULATOR_THIRD_RGB_SENSOR_WIDTH : Z;
  SIMULATOR_THIRD_RGB_SENSOR_HEIGHT : Z;
  SIMULATOR_AGENT_0_SENSORS : list string;
  SIMULATOR_DEBUG_RENDER : bool;
  SIMULATOR_HABITAT_SIM_V0_ENABLE_GFX_REPLAY_SAVE : bool;
  SIMULATOR_IK_ARM_URDF : string;
  TASK_COMPOSITE_SUCCESS_MUST_CALL_STOP : bool;
  TASK_REARRANGE_NAV_TO_OBJ_SUCCESS_MUST_CALL_STOP : bool;
  TASK_FORCE_TERMINATE_MAX_ACCUM_FORCE : Q;
  TASK_FORCE_TERMINATE_MAX_INSTANT_FORCE : Q;
  TASK_MEASUREMENTS : list string;
  TASK_ACTIONS : list (string * ActionConfig);
  ENVIRONMENT_MAX_EPISODE_STEPS : Z
}.

(** [key in config.TASK.ACTIONS] *)
Definition in_actions (key : string) (c : Config) : bool :=
  existsb (fun kv => String.eqb (fst kv) key) (TASK_ACTIONS c).

(** [config.TASK.ACTIONS.<key>.ARM_CONTROLLER = v] *)
Definition set_arm_controller (key v : string)
  (actions : list (string * ActionConfig)) : list (string * ActionConfig) :=
  map (fun kv => if String.eqb (fst kv) key
                 then (fst kv, {| ARM_CONTROLLER := v |})
                 else kv) actions.

(** lines 512-520 *)
Definition render_camera_overrides (args : Args) (c : Config) : Config :=
  {| SIMULATOR_THIRD_RGB_SENSOR_WIDTH := play_cam_res args;
     SIMULATOR_THIRD_RGB_SENSOR_HEIGHT := play_cam_res args;
     SIMULATOR_AGENT_0_SENSORS :=
       SIMULATOR_AGENT_0_SENSORS c ++ ["THIRD_RGB_SENSOR"];
     SIMULATOR_DEBUG_RENDER := true;
     SIMULATOR_HABITAT_SIM_V0_ENABLE_GFX_REPLAY_SAVE :=
       SIMULATOR_HABITAT_SIM_V0_ENABLE_GFX_REPLAY_SAVE c;
     SIMULATOR_IK_ARM_URDF := SIMULATOR_IK_ARM_URDF c;
     TASK_COMPOSITE_SUCCESS_MUST_CALL_STOP := false;
     TASK_REARRANGE_NAV_TO_OBJ_SUCCESS_MUST_CALL_STOP := false;
     TASK_FORCE_TERMINATE_MAX_ACCUM_FORCE := - (1);
     TASK_FORCE_TERMINATE_MAX_INSTANT_FORCE := - (1);
     TASK_MEASUREMENTS := TASK_MEASUREMENTS c;
     TASK_ACTIONS := TASK_ACTIONS c;
     ENVIRONMENT_MAX_EPISODE_STEPS := ENVIRONMENT_MAX_EPISODE_STEPS c |}.

(** lines 521-523 *)
Definition gfx_overrides (c : Config) : Config :=
  {| SIMULATOR_THIRD_RGB_SENSOR_WIDTH := SIMULATOR_THIRD_RGB_SENSOR_WIDTH c;
     SIMULATOR_THIRD_RGB_SENSOR_HEIGHT := SIMULATOR_THIRD_RGB_SENSOR_HEIGHT c;
     SIMULATOR_AGENT_0_SENSORS := SIMULATOR_AGENT_0_SENSORS c;
     SIMULATOR_DEBUG_RENDER := SIMULATOR_DEBUG_RENDER c;
     SIMULATOR_HABITAT_SIM_V0_ENABLE_GFX_REPLAY_SAVE := true;
     SIMULATOR_IK_ARM_URDF := SIMULATOR_IK_ARM_URDF c;
     TASK_COMPOSITE_SUCCESS_MUST_CALL_STOP :=
       TASK_COMPOSITE_SUCCESS_MUST_CALL_STOP c;
     TASK_REARRANGE_NAV_TO_OBJ_SUCCESS_MUST_CALL_STOP :=
       TASK_REARRANGE_NAV_TO_OBJ_SUCCESS_MUST_CALL_STOP c;
     TASK_FORCE_TERMINATE_MAX_ACCUM_FORCE :=
       TASK_FORCE_TERMINATE_MAX_ACCUM_FORCE c;
     TASK_FORCE_TERMINATE_MAX_INSTANT_FORCE :=
       TASK_FORCE_TERMINATE_MAX_INSTANT_FORCE c;
     TASK_MEASUREMENTS := TASK_MEASUREMENTS c ++ ["GFX_REPLAY_MEASURE"];
     TASK_ACTIONS := TASK_ACTIONS c;
     ENVIRONMENT_MAX_EPISODE_STEPS := ENVIRONMENT_MAX_EPISODE_STEPS c |}.

(** lines 524-525 *)
Definition never_end_overrides (c : Config) : Config :=
  {| SIMULATOR_THIRD_RGB_SENSOR_WIDTH := SIMULATOR_THIRD_RGB_SENSOR_WIDTH c;
     SIMULATOR_THIRD_RGB_SENSOR_HEIGHT := SIMULATOR_THIRD_RGB_SENSOR_HEIGHT c;
     SIMULATOR_AGENT_0_SENSORS := SIMULATOR_AGENT_0_SENSORS c;
     SIMULATOR_DEBUG_RENDER := SIMULATOR_DEBUG_RENDER c;
     SIMULATOR_HABITAT_SIM_V0_ENABLE_GFX_REPLAY_SAVE :=
       SIMULATOR_HABITAT_SIM_V0_ENABLE_GFX_REPLAY_SAVE c;
     SIMULATOR_IK_ARM_URDF := SIMULATOR_IK_ARM_URDF c;
     TASK_COMPOSITE_SUCCESS_MUST_CALL_STOP :=
       TASK_COMPOSITE_SUCCESS_MUST_CALL_STOP c;
     TASK_REARRANGE_NAV_TO_OBJ_SUCCESS_MUST_CALL_STOP :=
       TASK_REARRANGE_NAV_TO_OBJ_SUCCESS_MUST_CALL_STOP c;
     TASK_FORCE_TERMINATE_MAX_ACCUM_FORCE :=
       TASK_FORCE_TERMINATE_MAX_ACCUM_FORCE c;
     TASK_FORCE_TERMINATE_MAX_INSTANT_FORCE :=
       TASK_FORCE_TERMINATE_MAX_INSTANT_FORCE c;
     TASK_MEASUREMENTS := TASK_MEASUREMENTS c;
     TASK_ACTIONS := TASK_ACTIONS c;
     ENVIRONMENT_MAX_EPISODE_STEPS := 0 |}.

(** lines 531-534 *)
Definition ik_overrides (c : Config) : Config :=
  {| SIMULATOR_THIRD_RGB_SENSOR_WIDTH := SIMULATOR_THIRD_RGB_SENSOR_WIDTH c;
     SIMULATOR_THIRD_RGB_SENSOR_HEIGHT := SIMULATOR_THIRD_RGB_SENSOR_HEIGHT c;
     SIMULATOR_AGENT_0_SENSORS := SIMULATOR_AGENT_0_SENSORS c;
     SIMULATOR_DEBUG_RENDER := SIMULATOR_DEBUG_RENDER c;
     SIMULATOR_HABITAT_SIM_V0_ENABLE_GFX_REPLAY_SAVE :=
       SIMULATOR_HABITAT_SIM_V0_ENABLE_GFX_REPLAY_SAVE c;
     SIMULATOR_IK_ARM_URDF :=
       "data/robots/hab_spot_arm/urdf/hab_spot_onlyarm.urdf";
     TASK_COMPOSITE_SUCCESS_MUST_CALL_STOP :=
       TASK_COMPOSITE_SUCCESS_MUST_CALL_STOP c;
     TASK_REARRANGE_NAV_TO_OBJ_SUCCESS_MUST_CALL_STOP :=
       TASK_REARRANGE_NAV_TO_OBJ_SUCCESS_MUST_CALL_STOP c;
     TASK_FORCE_TERMINATE_MAX_ACCUM_FORCE :=
       TASK_FORCE_TERMINATE_MAX_ACCUM_FORCE c;
     TASK_FORCE_TERMINATE_MAX_INSTANT_FORCE :=
       TASK_FORCE_TERMINATE_MAX_INSTANT_FORCE c;
     TASK_MEASUREMENTS := TASK_MEASUREMENTS c;
     TASK_ACTIONS :=
       set_arm_controller "ARM_ACTION" "ArmEEAction" (TASK_ACTIONS c);
     ENVIRONMENT_MAX_EPISODE_STEPS := ENVIRONMENT_MAX_EPISODE_STEPS c |}.

(** What the script runs on: the Python installation, the habitat
    framework and the clock.
    - [pygame_imported]: [import pygame] succeeded (lines 73-76);
    - [get_config path opts]: [habitat.get_config];
    - [make_env config]: [habitat.Env(config=config)] followed by
      [env.reset()]: the simulator and the pose of the robot after the reset;
    - [libm_pow_half]: [x ** 0.5];
    - [difference]: [int(later - now)]. *)
Record World : Type := mkWorld {
  pygame_imported : bool;
  get_config : string -> list string -> Config;
  make_env : Config -> Simulator * Robot;
  libm_pow_half : Q -> Q;
  difference : Z
}.

(** lines 435-436 *)
Definition has_pygame (w : World) : bool := pygame_imported w.

(** What the script leaves behind, in order. *)
Inductive effect : Type :=
| EnvCreated (config : Config)
| Pickled (path : string) (difference : Z) (total_point : option Z)
    (visited_list : list point)
| FigureSaved (path : string) (x y : list Q).

Inductive main_outcome : Type :=
| Completed
| Raised (e : exn)
| Unfinished.

(** lines 510-535: the configuration handed to [habitat.Env], or the
    exception of line 528. *)
Definition configure (w : World) (args : Args) : exn + Config :=
  let config := get_config w (cfg args) (opts args) in
  let config :=
    if negb (same_task args) then render_camera_overrides args config
    else config in
  let config := if gfx args then gfx_overrides config else config in
  let config := if never_end args then never_end_overrides config
                else config in
  if add_ik args then
    if negb (in_actions "ARM_ACTION" config) then inl ValueError
    else inr (ik_overrides config)
  else inr config.

(** lines 562-566 *)
Definition scatter_x (visited_list : list point) : list Q :=
  map (fun pt : point => let '(x, _, _) := fst pt in x) visited_list.

Definition scatter_y (visited_list : list point) : list Q :=
  map (fun pt : point => let '(_, _, z) := fst pt in z) visited_list.

(** lines 504-572; the run ends at the final [pdb.set_trace()].
    [Unfinished]: the fuel given to [play_env] did not suffice. *)
Definition main (fuel : nat) (w : World) (args : Args)
  : main_outcome * list effect :=
  if negb (has_pygame w) && negb (no_render args) then (Raised ImportError, [])
  else
    match configure w args with
    | inl e => (Raised e, [])
    | inr config =>
        let '(sim, start) := make_env w config in
        match play_env (libm_pow_half w) sim fuel args 0 true
                (initial_state start) with
        | (Ret total_point, s) =>
            let visited_list := visit_pos_rot s in
            (Completed,
             [EnvCreated config;
              Pickled ("/Users/jimmytyyang/Documents/" ++ SAVE_NAME
                         ++ "_visit_points.pkl")
                (difference w) total_point visited_list;
              FigureSaved ("/Users/jimmytyyang/Documents/" ++ SAVE_NAME
                             ++ "_area.png")
                (scatter_x visited_list) (scatter_y visited_list)])
        | (Raise e, _) => (Raised e, [EnvCreated config])
        | (OutOfFuel, _) => (Unfinished, [EnvCreated config])
        end
    end.

Close Scope string_scope.

(** ** Vocabulary of the statements *)

(** The recording guard of lines 301-304; [all_arm_actions] is empty when
    it is evaluated. *)
Definition early_exit (args : Args) : bool :=
  save_actions args && (0 >? save_actions_count args)%Z.

(** The element of [visit_pos_rot] that records the pose [r]
    (lines 407-409 and 545-547). *)
Definition point_of (r : Robot) : point :=
  (vec2list (base_pos r), base_rot r).

Definition robot_of (p : point) : Robot :=
  let '((x, y, z), rot) := p in
  {| base_pos := mkVector3 x y z; base_rot := rot |}.

(** Line 333 lets the call through: the pose is navigable and free of
    contact. *)
Definition clear (sim : Simulator) (r : Robot) : bool :=
  is_navigable sim (base_pos r) && negb (contact_test sim r).

(** The state right after a call of [play_env] has begun. *)
Definition entered (level : Z) (flag_distinct : bool) (s : state) : state :=
  {| robot := robot s;
     visit_pos_rot := visit_pos_rot s;
     log := log s ++ [Enter level (robot s) flag_distinct] |}.

Definition linear_velocity_of (base_action : Z * Z) : Vector3 :=
  mkVector3 (inject_Z (fst base_action * 10)) 0 0.

Definition angular_velocity_of (base_action : Z * Z) : Vector3 :=
  mkVector3 0 (inject_Z (snd base_action * 50)) 0.

(** The pose that lines 349-371 give the robot: [base_action] integrated
    from the pose [before], with the height of [before]. *)
Definition moved (sim : Simulator) (before : Robot) (base_action : Z * Z)
  : Robot :=
  let target :=
    integrate_transform sim (1 / ctrl_freq sim)
      (linear_velocity_of base_action) (angular_velocity_of base_action)
      before in
  {| base_pos := set_index1 (fst target) (vy (base_pos before));
     base_rot := snd target |}.

(** [flag_distinct] of lines 385-404 for [base_action] tried from the pose
    [before] with the visited list [visit]. *)
Definition candidate_flag (pow_half : Q -> Q) (sim : Simulator)
  (before : Robot) (base_action : Z * Z) (visit : list point) : bool :=
  let r' := moved sim before base_action in
  scan_visited pow_half visit (base_pos r') (base_rot r').

(** The visited list after lines 406-409. *)
Definition candidate_visit (pow_half : Q -> Q) (sim : Simulator)
  (before : Robot) (base_action : Z * Z) (visit : list point) : list point :=
  if candidate_flag pow_half sim before base_action visit
  then visit ++ [point_of (moved sim before base_action)]
  else visit.

(** What lines 349-409 add to the log. *)
Definition candidate_events (pow_half : Q -> Q) (sim : Simulator)
  (level : Z) (before : Robot) (base_action : Z * Z) (visit : list point)
  : list event :=
  Integrate level (linear_velocity_of base_action)
    (angular_velocity_of base_action) before
  :: Moved level (moved sim before base_action)
  :: (if candidate_flag pow_half sim before base_action visit
      then [Appended (point_of (moved sim before base_action))]
      else []).

(** The state after lines 349-409 for [base_action]. *)
Definition candidate_state (pow_half : Q -> Q) (sim : Simulator)
  (level : Z) (before : Robot) (base_action : Z * Z) (s : state) : state :=
  {| robot := moved sim before base_action;
     visit_pos_rot :=
       candidate_visit pow_half sim before base_action (visit_pos_rot s);
     log := log s
            ++ candidate_events pow_half sim level before base_action
                 (visit_pos_rot s) |}.

(** What a call does with the result of a recursive call (lines 410-412):
    a number is added to [ans]; [None] cannot be added. *)
Definition continue_with (ans : Z) (res : outcome (option Z) * state)
  (k : Z -> state -> outcome (option Z) * state)
  : outcome (option Z) * state :=
  match res with
  | (Ret (Some n), s') => k (ans + n)%Z s'
  | (Ret None, s') => (Raise TypeError, s')
  | (Raise e, s') => (Raise e, s')
  | (OutOfFuel, s') => (OutOfFuel, s')
  end.

(** What a call ends with when a recursive call did not return a number. *)
Definition abort (o : outcome (option Z)) : outcome (option Z) :=
  match o with
  | Ret _ => Raise TypeError
  | Raise e => Raise e
  | OutOfFuel => OutOfFuel
  end.

Definition is_number (o : outcome (option Z)) : bool :=
  match o with
  | Ret (Some _) => true
  | _ => false
  end.

(** The points appended according to a log. *)
Fixpoint appended (l : list event) : list point :=
  match l with
  | [] => []
  | Appended p :: l' => p :: appended l'
  | _ :: l' => appended l'
  end.

(** The integrations a log records for the calls at [level]: velocities
    and the pose integrated from. *)
Fixpoint integrations_at (level : Z) (l : list event)
  : list (Vector3 * Vector3 * Robot) :=
  match l with
  | [] => []
  | Integrate lv lin ang r :: l' =>
      if (lv =? level)%Z then (lin, ang, r) :: integrations_at level l'
      else integrations_at level l'
  | _ :: l' => integrations_at level l'
  end.

(** The calls of [play_env] at [level] that a log records. *)
Fixpoint calls_at (level : Z) (l : list event) : list (Robot * bool) :=
  match l with
  | [] => []
  | Enter lv r flag :: l' =>
      if (lv =? level)%Z then (r, flag) :: calls_at level l'
      else calls_at level l'
  | _ :: l' => calls_at level l'
  end.

(** The poses a log records the robot to have been moved to. *)
Fixpoint moves (l : list event) : list Robot :=
  match l with
  | [] => []
  | Moved _ r :: l' => r :: moves l'
  | _ :: l' => moves l'
  end.

(** The position distance of lines 393-397 between two recorded points. *)
Definition position_distance (pow_half : Q -> Q) (p q : point) : Q :=
  diff_pos_of pow_half (fst p) (base_pos (robot_of q)).

Definition angular_distance (p q : point) : Q :=
  distance_angle (snd p) (snd q).

(** More than 0.01 apart in position distance or in angular distance. *)
Definition apart (pow_half : Q -> Q) (p q : point) : Prop :=
  1 # 100 < position_distance pow_half p q
  \/ 1 # 100 < angular_distance p q.

(** Any two entries of the list are [apart]. *)
Definition pairwise_apart (pow_half : Q -> Q) (l : list point) : Prop :=
  forall (i j : nat) (p q : point),
    i <> j -> nth_error l i = Some p -> nth_error l j = Some q ->
    apart pow_half p q.

(** The number of recorded points whose pose is navigable and free of
    contact. *)
Definition count_clear (sim : Simulator) (l : list point) : Z :=
  Z.of_nat (List.length (filter (fun p => clear sim (robot_of p)) l)).

(** ** The runs of [play_env] as derivations

    [run level flag r visit events o r' visit']: a call at [level] with
    [flag_distinct = flag], started with the robot at [r] and the visited
    list [visit], adds [events] to the log and ends with the outcome [o],
    the robot at [r'] and the visited list [visit'].  [run_out_of_fuel]
    cuts a run where a call is about to begin. *)

Section Runs.

Variable pow_half : Q -> Q.
Variable sim : Simulator.
Variable args : Args.

Inductive run : Z -> bool -> Robot -> list point -> list event ->
                outcome (option Z) -> Robot -> list point -> Prop :=
| run_out_of_fuel level flag r visit :
    run level flag r visit [] OutOfFuel r visit
| run_early_exit level flag r visit :
    early_exit args = true ->
    run level flag r visit [Enter level r flag] (Ret None) r visit
| run_stop level flag r visit :
    early_exit args = false ->
    negb (clear sim r) || negb flag = true ->
    run level flag r visit [Enter level r flag] (Ret (Some 0%Z)) r visit
| run_first_aborts level r visit ev1 o1 r1 visit1 :
    early_exit args = false ->
    clear sim r = true ->
    run (level + 1) (candidate_flag pow_half sim r (0, 1)%Z visit)
      (moved sim r (0, 1)%Z)
      (candidate_visit pow_half sim r (0, 1)%Z visit) ev1 o1 r1 visit1 ->
    is_number o1 = false ->
    run level true r visit
      (Enter level r true
         :: candidate_events pow_half sim level r (0, 1)%Z visit ++ ev1)
      (abort o1) r1 visit1
| run_second_aborts level r visit ev1 n1 r1 visit1 ev2 o2 r2 visit2 :
    early_exit args = false ->
    clear sim r = true ->
    run (level + 1) (candidate_flag pow_half sim r (0, 1)%Z visit)
      (moved sim r (0, 1)%Z)
      (candidate_visit pow_half sim r (0, 1)%Z visit)
      ev1 (Ret (Some n1)) r1 visit1 ->
    run (level + 1) (candidate_flag pow_half sim r (1, 0)%Z visit1)
      (moved sim r (1, 0)%Z)
      (candidate_visit pow_half sim r (1, 0)%Z visit1) ev2 o2 r2 visit2 ->
    is_number o2 = false ->
    run level true r visit
      (Enter level r true
         :: candidate_events pow_half sim level r (0, 1)%Z visit ++ ev1
         ++ candidate_events pow_half sim level r (1, 0)%Z visit1 ++ ev2)
      (abort o2) r2 visit2
| run_both level r visit ev1 n1 r1 visit1 ev2 n2 r2 visit2 :
    early_exit args = false ->
    clear sim r = true ->
    run (level + 1) (candidate_flag pow_half sim r (0, 1)%Z visit)
      (moved sim r (0, 1)%Z)
      (candidate_visit pow_half sim r (0, 1)%Z visit)
      ev1 (Ret (Some n1)) r1 visit1 ->
    run (level + 1) (candidate_flag pow_half sim r (1, 0)%Z visit1)
      (moved sim r (1, 0)%Z)
      (candidate_visit pow_half sim r (1, 0)%Z visit1)
      ev2 (Ret (Some n2)) r2 visit2 ->
    run level true r visit
      (Enter level r true
         :: candidate_events pow_half sim level r (0, 1)%Z visit ++ ev1
         ++ candidate_events pow_half sim level r (1, 0)%Z visit1 ++ ev2)
      (Ret (Some (1 + n1 + n2)%Z)) r2 visit2.

End Runs.

(** The events that the run from [s] to [s'] added to the log. *)
Definition new_events (s s' : state) : list event :=
  skipn (List.length (log s)) (log s').

(** The invariant that the scan of lines 391-404 maintains: every entry of
    the list passed the scan against the entries before it. *)
Definition scanned (pow_half : Q -> Q) (l : list point) : Prop :=
  forall (l1 l2 : list point) (p : point),
    l = l1 ++ p :: l2 ->
    scan_visited pow_half l1 (base_pos (robot_of p)) (base_rot (robot_of p))
    = true.

(** The height of a pose and of a recorded point. *)
Definition height (r : Robot) : Q := vy (base_pos r).

(** The files a run has written, in order. *)
Fixpoint written_paths (l : list effect) : list string :=
  match l with
  | [] => []
  | EnvCreated _ :: l' => written_paths l'
  | Pickled path _ _ _ :: l' => path :: written_paths l'
  | FigureSaved path _ _ :: l' => path :: written_paths l'
  end.

Definition pickle_path : string :=
  "/Users/jimmytyyang/Documents/spot_final_visit_points.pkl".

Definition figure_path : string :=
  "/Users/jimmytyyang/Documents/spot_final_area.png".

(** The environment has been constructed. *)
Definition env_created (l : list effect) : bool :=
  existsb (fun e => match e with EnvCreated _ => true | _ => false end) l.

(** ** Sample platforms

    A kinematic simulator on the horizontal plane, used to run the model on
    concrete inputs.  Headings are quarter turns; the results of the
    integration are reduced fractions. *)

Module Sample.

Local Open Scope string_scope.

(** [floor (1000 * sqrt q) / 1000] *)
Definition pow_half (q : Q) : Q :=
  Z.sqrt (Qnum q * 1000000 / Z.pos (Qden q)) # 1000.

Definition quarter (rot : Q) : Z := (Qfloor (rot / (np_pi / 2)) mod 4)%Z.

(** The local x axis of a robot turned by [rot] about the vertical. *)
Definition heading (rot : Q) : Q * Q :=
  match quarter rot with
  | 0%Z => (1, 0)
  | 1%Z => (0, - (1))
  | 2%Z => (- (1), 0)
  | _ => (0, 1)
  end.

Definition integrate (dt : Q) (lin ang : Vector3) (r : Robot)
  : Vector3 * Q :=
  let '(dx, dz) := heading (base_rot r) in
  let p := base_pos r in
  (mkVector3 (Qred (vx p + dt * vx lin * dx))
     (Qred (vy p + dt * vy lin))
     (Qred (vz p + dt * vx lin * dz)),
   Qred (py_mod (base_rot r + dt * vy ang) (2 * np_pi))).

(** One base translation covers [np_pi / 10] and one base rotation is a
    quarter turn. *)
Definition quarter_turn_freq : Q := 100 / np_pi.

Definition step : Q := np_pi / 10.

(** A rectangular room of [w] by [h] steps, without obstacles. *)
Definition room (w h : Z) : Simulator :=
  {| is_navigable := fun p =>
       Qle_bool 0 (vx p) && Qle_bool (vx p) (inject_Z w * step)
       && Qle_bool 0 (vz p) && Qle_bool (vz p) (inject_Z h * step);
     contact_test := fun _ => false;
     ctrl_freq := quarter_turn_freq;
     integrate_transform := integrate |}.

(** An unbounded plane on which one base rotation is a full turn. *)
Definition open_plane : Simulator :=
  {| is_navigable := fun _ => true;
     contact_test := fun _ => false;
     ctrl_freq := 25 / np_pi;
     integrate_transform := integrate |}.

Definition origin : Robot :=
  {| base_pos := mkVector3 0 0 0; base_rot := 0 |}.

Definition default_args : Args :=
  {| no_render := true;
     save_obs := false;
     save_obs_fname := "play.mp4";
     save_actions := false;
     save_actions_fname := "play_actions.txt";
     save_actions_count := 200;
     play_cam_res := 512;
     skip_render_text := false;
     same_task := false;
     skip_task := false;
     never_end := false;
     add_ik := false;
     gfx := false;
     load_actions := None;
     cfg := DEFAULT_CFG;
     opts := [] |}.

(** The default options with [--save-obs] and [--save-actions]. *)
Definition recording_args : Args :=
  {| no_render := true;
     save_obs := true;
     save_obs_fname := "play.mp4";
     save_actions := true;
     save_actions_fname := "play_actions.txt";
     save_actions_count := 200;
     play_cam_res := 512;
     skip_render_text := false;
     same_task := false;
     skip_task := false;
     never_end := false;
     add_ik := false;
     gfx := false;
     load_actions := None;
     cfg := DEFAULT_CFG;
     opts := [] |}.

(** [--no-render --save-actions --save-actions-count -1] *)
Definition negative_count_args : Args :=
  {| no_render := true;
     save_obs := false;
     save_obs_fname := "play.mp4";
     save_actions := true;
     save_actions_fname := "play_actions.txt";
     save_actions_count := -1;
     play_cam_res := 512;
     skip_render_text := false;
     same_task := false;
     skip_task := false;
     never_end := false;
     add_ik := false;
     gfx := false;
     load_actions := None;
     cfg := DEFAULT_CFG;
     opts := [] |}.

(** [--no-render --add-ik] *)
Definition ik_args : Args :=
  {| no_render := true;
     save_obs := false;
     save_obs_fname := "play.mp4";
     save_actions := false;
     save_actions_fname := "play_actions.txt";
     save_actions_count := 200;
     play_cam_res := 512;
     skip_render_text := false;
     same_task := false;
     skip_task := false;
     never_end := false;
     add_ik := true;
     gfx := false;
     load_actions := None;
     cfg := DEFAULT_CFG;
     opts := [] |}.

(** No option at all: the script renders. *)
Definition render_args : Args :=
  {| no_render := false;
     save_obs := false;
     save_obs_fname := "play.mp4";
     save_actions := false;
     save_actions_fname := "play_actions.txt";
     save_actions_count := 200;
     play_cam_res := 512;
     skip_render_text := false;
     same_task := false;
     skip_task := false;
     never_end := false;
     add_ik := false;
     gfx := false;
     load_actions := None;
     cfg := DEFAULT_CFG;
     opts := [] |}.

(** A navigation task whose only action is the base velocity. *)
Definition nav_config : Config :=
  {| SIMULATOR_THIRD_RGB_SENSOR_WIDTH := 128;
     SIMULATOR_THIRD_RGB_SENSOR_HEIGHT := 128;
     SIMULATOR_AGENT_0_SENSORS := ["HEAD_DEPTH_SENSOR"];
     SIMULATOR_DEBUG_RENDER := false;
     SIMULATOR_HABITAT_SIM_V0_ENABLE_GFX_REPLAY_SAVE := false;
     SIMULATOR_IK_ARM_URDF := "";
     TASK_COMPOSITE_SUCCESS_MUST_CALL_STOP := true;
     TASK_REARRANGE_NAV_TO_OBJ_SUCCESS_MUST_CALL_STOP := true;
     TASK_FORCE_TERMINATE_MAX_ACCUM_FORCE := 0;
     TASK_FORCE_TERMINATE_MAX_INSTANT_FORCE := 0;
     TASK_MEASUREMENTS := [];
     TASK_ACTIONS := [("BASE_VELOCITY", {| ARM_CONTROLLER := "" |})];
     ENVIRONMENT_MAX_EPISODE_STEPS := 200 |}.

(** A machine without PyGame on which every task is [nav_config] in the
    room of one step by one step, the robot starting in a corner. *)
Definition world : World :=
  {| pygame_imported := false;
     get_config := fun _ _ => nav_config;
     make_env := fun _ => (room 1 1, origin);
     libm_pow_half := pow_half;
     difference := 0 |}.

(** A pose one step outside the room. *)
Definition outside : Robot :=
  {| base_pos := mkVector3 (Qred (- step)) 0 0; base_rot := 0 |}.

Definition Q_eqb (a b : Q) : bool :=
  (Qnum a =? Qnum b)%Z && (Qden a =? Qden b)%positive.

Definition point_eqb (p q : point) : bool :=
  let '((p0, p1, p2), pr) := p in
  let '((q0, q1, q2), qr) := q in
  Q_eqb p0 q0 && Q_eqb p1 q1 && Q_eqb p2 q2 && Q_eqb pr qr.

(** The poses that the exploration of [room 1 1] from [origin] can meet:
    the room and one step around it, under the four headings. *)
Definition room_points : list point :=
  let coordinates := map (fun k => Qred (inject_Z k * step)) [-1; 0; 1; 2]%Z in
  let headings :=
    map (fun k => Qred (inject_Z k * (np_pi / 2))) [0; 1; 2; 3]%Z in
  flat_map (fun x =>
    flat_map (fun z =>
      map (fun a => ((x, 0, z), a)) headings) coordinates) coordinates.

(** Every pose of [room_points] is within both thresholds of itself, and
    the base actions lead from the navigable ones into [room_points]. *)
Definition room_points_closed : bool :=
  forallb (fun p =>
    within_threshold pow_half p (base_pos (robot_of p)) (base_rot (robot_of p))
    && (negb (clear (room 1 1) (robot_of p))
        || forallb (fun a =>
             existsb (point_eqb (point_of (moved (room 1 1) (robot_of p) a)))
               room_points) base_actions)) room_points.

(** The pose at abscissa [x] on the ray that the exploration of
    [open_plane] walks from [origin]. *)
Definition on_ray (x : Q) : Robot :=
  {| base_pos := mkVector3 x 0 0; base_rot := 0 |}.

(** The length of one base translation on [open_plane]. *)
Definition stride : Q := 2 * np_pi / 5.

(** The visited list holds poses of the ray up to [x]. *)
Definition behind (x : Q) (visit : list point) : Prop :=
  forall p : point,
    In p visit -> exists x', p = point_of (on_ray x') /\ x' <= x.

End Sample.

(** ** [step_env] and [get_input_vel_ctlr] (lines 115-177)

    Dictionaries are association lists in which a key is looked up from
    the front.  [env.step] is a parameter; the environment is otherwise
    read only: the number of robots, the action space and the keys of
    [env.task.actions]. *)

Open Scope string_scope.

(** [d[key]], [None] standing for the [KeyError]. *)
Fixpoint dict_get {A : Type} (key : string) (d : list (string * A))
  : option A :=
  match d with
  | [] => None
  | (k, v) :: d' => if String.eqb k key then Some v else dict_get key d'
  end.

(** [key in d] *)
Definition dict_has {A : Type} (key : string) (d : list (string * A))
  : bool :=
  match dict_get key d with
  | Some _ => true
  | None => false
  end.

(** [str(n)] for an [int]. *)
Definition py_str (n : Z) : string := NilZero.string_of_int (Z.to_int n).

(** A value of the [action_args] dictionary. *)
Inductive arg_value : Type :=
| ArgVector (v : list Q)
| ArgNumber (x : Q)
| ArgNone.

(** The dictionary handed to [env.step]. *)
Record step_request : Type := mkStepRequest {
  action : string;
  action_args : list (string * arg_value)
}.

Inductive input_error : Type :=
| KeyError (key : string)
| AttributeError (name : string)
| IndexError.

(** What [get_input_vel_ctlr] reads of [env]:
    - [robots_mgr]: [len(env._sim.robots_mgr)];
    - [action_space_spaces]: [env.action_space.spaces], a dictionary of
      dictionary spaces, each entry of these with its [shape];
    - [task_actions]: the keys of [env.task.actions], each with
      [hasattr(action, "arm_ctrlr")]. *)
Record InputEnv : Type := mkInputEnv {
  robots_mgr : nat;
  action_space_spaces : list (string * list (string * list nat));
  task_actions : list (string * bool)
}.

Section Input.

Variable Obs : Type.

(** [env.step] *)
Variable env_step : step_request -> Obs.

(** lines 115-116 *)
Definition step_env (action_name : string)
  (action_args : list (string * arg_value)) : Obs :=
  env_step {| action := action_name; action_args := action_args |}.

(** [arm_action[-1]] *)
Definition last_item (arm_action : list Q) : input_error + Q :=
  match arm_action with
  | [] => inl IndexError
  | x :: rest => inr (last rest x)
  end.

(** lines 148-152: the arm action and [given_arm_action]. *)
Definition arm_action_or_zeros (arm_action : option (list Q))
  (shape : list nat) : input_error + (list Q * bool) :=
  match arm_action with
  | None =>
      match shape with
      | [] => inl IndexError
      | shape0 :: _ => inr (repeat 0%Q shape0, false)
      end
  | Some a => inr (a, true)
  end.

(** lines 119-177.  The result is the tuple of the observations that
    [env.step] returned, the arm action and [end_ep]. *)
Definition get_input_vel_ctlr (skip_pygame : bool)
  (arm_action : option (list Q)) (env : InputEnv) (not_block_input : bool)
  (agent_to_control : Z) (base_action : option (list Q))
  : input_error + (Obs * option (list Q) * bool) :=
  if skip_pygame then inr (step_env "EMPTY" [], None, false)
  else
    let multi_agent := (1 <? robots_mgr env)%nat in
    let arm_action_name := "ARM_ACTION" in
    let base_action_name := "BASE_VELOCITY" in
    let arm_key := "arm_action" in
    let grip_key := "grip_action" in
    let base_key := "base_vel" in
    let agent_k := "AGENT_" ++ py_str agent_to_control in
    let arm_action_name :=
      if multi_agent then agent_k ++ "_" ++ arm_action_name
      else arm_action_name in
    let base_action_name :=
      if multi_agent then agent_k ++ "_" ++ base_action_name
      else base_action_name in
    let arm_key := if multi_agent then agent_k ++ "_" ++ arm_key
                   else arm_key in
    let grip_key := if multi_agent then agent_k ++ "_" ++ grip_key
                    else grip_key in
    let base_key := if multi_agent then agent_k ++ "_" ++ base_key
                    else base_key in
    match dict_get arm_action_name (action_space_spaces env) with
    | None => inl (KeyError arm_action_name)
    | Some arm_spaces =>
    match dict_get arm_key arm_spaces with
    | None => inl (KeyError arm_key)
    | Some shape =>
    match dict_get arm_action_name (task_actions env) with
    | None => inl (KeyError arm_action_name)
    | Some false => inl (AttributeError "arm_ctrlr")
    | Some true =>
    match arm_action_or_zeros arm_action shape with
    | inl e => inl e
    | inr (arm_action, given_arm_action) =>
        let end_ep := false in
        let magic_grasp := ArgNone in
        let arm_request :=
          if given_arm_action then
            (* The grip is also contained in the provided action *)
            match last_item arm_action with
            | inl e => inl e
            | inr grip =>
                inr (arm_action_name,
                     [(arm_key, ArgVector (removelast arm_action));
                      (grip_key, ArgNumber grip)])
            end
          else
            inr (arm_action_name,
                 [(arm_key, ArgVector arm_action);
                  (grip_key, magic_grasp)]) in
        let request :=
          match base_action with
          | Some b =>
              if dict_has base_action_name (action_space_spaces env)
              then inr (base_action_name, [(base_key, ArgVector b)])
              else arm_request
          | None => arm_request
          end in
        match request with
        | inl e => inl e
        | inr (name, args) =>
            let arm_action := (arm_action ++ [0%Q])%list in
            inr (step_env name args, Some arm_action, end_ep)
        end
    end end end end.

End Input.

(** ** [get_wrapped_prop] (lines 180-188)

    A Python value is [None], an object with its instance attributes, or a
    value without attributes of its own. *)

#[local] Unset Elimination Schemes.

Inductive pyobj : Type :=
| PyNone
| PyValue (id : Z)
| PyObject (attrs : list (string * pyobj)).

#[local] Set Elimination Schemes.

(** [hasattr(v, name)] and [getattr(v, name)] *)
Definition attr (v : pyobj) (name : string) : option pyobj :=
  match v with
  | PyObject attrs => dict_get name attrs
  | _ => None
  end.

(** lines 180-188.  The recursive calls on [venv.venv] and [venv.env] are
    made where the attribute is found in the list, which keeps the
    recursion structural. *)
Fixpoint get_wrapped_prop (venv : pyobj) (prop : string) : pyobj :=
  match venv with
  | PyObject attrs =>
      match dict_get prop attrs with
      | Some v => v
      | None =>
          let recurse_into :=
            fix recurse_into (name : string) (l : list (string * pyobj))
              : option pyobj :=
              match l with
              | [] => None
              | (k, v) :: l' =>
                  if String.eqb k name then Some (get_wrapped_prop v prop)
                  else recurse_into name l'
              end in
          match recurse_into "venv" attrs with
          | Some r => r
          | None =>
              match recurse_into "env" attrs with
              | Some r => r
              | None => PyNone
              end
          end
      end
  | _ => PyNone
  end.

(** An object that wraps [inner] under the attribute [name], beside the
    attributes [others]. *)
Definition wrap (name : string) (others : list (string * pyobj))
  (inner : pyobj) : pyobj :=
  PyObject ((name, inner) :: others).

Close Scope string_scope.

(** ** [FreeCamHelper] (lines 191-254) *)

(** The keys that [update] reads of [pygame.key.get_pressed()]. *)
Inductive key : Type :=
| K_z | K_u | K_o | K_i | K_k | K_j | K_l
| K_q | K_e | K_w | K_s | K_a | K_d | K_b.

Record FreeCamHelper : Type := mkFreeCamHelper {
  _is_free_cam_mode : bool;
  _last_pressed : Z;
  _free_rpy : list3;
  _free_xyz : list3
}.

(** [np.zeros(3)] *)
Definition zeros3 : list3 := (0, 0, 0).

(** [v[i] += d] *)
Definition add_at (i : nat) (d : Q) (v : list3) : list3 :=
  let '(v0, v1, v2) := v in
  match i with
  | 0%nat => (v0 + d, v1, v2)
  | 1%nat => (v0, v1 + d, v2)
  | _ => (v0, v1, v2 + d)
  end.

(** [v *= c] *)
Definition scale3 (c : Q) (v : list3) : list3 :=
  let '(v0, v1, v2) := v in (v0 * c, v1 * c, v2 * c).

(** [v += w] *)
Definition add3 (v w : list3) : list3 :=
  let '(v0, v1, v2) := v in
  let '(w0, w1, w2) := w in (v0 + w0, v1 + w1, v2 + w2).

(** lines 192-196 *)
Definition FreeCamHelper_init : FreeCamHelper :=
  {| _is_free_cam_mode := false;
     _last_pressed := 0;
     _free_rpy := zeros3;
     _free_xyz := zeros3 |}.

(** lines 198-200 *)
Definition is_free_cam_mode (self : FreeCamHelper) : bool :=
  _is_free_cam_mode self.

Section FreeCam.

(** The observations, the environment, the transformation that
    [mn.Matrix4.from_(euler_to_quat(rpy).to_matrix(), mn.Vector3( *xyz))]
    builds, the assignment of lines 249-251 and
    [env._sim.get_sensor_observations()]. *)
Variable Obs : Type.
Variable Env : Type.
Variable Transformation : Type.
Variable transformation_from : list3 -> list3 -> Transformation.
Variable set_third_rgb_transformation : Transformation -> Env -> Env.
Variable get_sensor_observations : Env -> Obs.

(** lines 210-222 *)
Definition offset_rpy_of (keys : key -> bool) : list3 :=
  let offset_rpy := zeros3 in
  if keys K_u then add_at 1 1 offset_rpy
  else if keys K_o then add_at 1 (- (1)) offset_rpy
  else if keys K_i then add_at 2 1 offset_rpy
  else if keys K_k then add_at 2 (- (1)) offset_rpy
  else if keys K_j then add_at 0 1 offset_rpy
  else if keys K_l then add_at 0 (- (1)) offset_rpy
  else offset_rpy.

(** lines 224-236 *)
Definition offset_xyz_of (keys : key -> bool) : list3 :=
  let offset_xyz := zeros3 in
  if keys K_q then add_at 1 1 offset_xyz
  else if keys K_e then add_at 1 (- (1)) offset_xyz
  else if keys K_w then add_at 2 1 offset_xyz
  else if keys K_s then add_at 2 (- (1)) offset_xyz
  else if keys K_a then add_at 0 1 offset_xyz
  else if keys K_d then add_at 0 (- (1)) offset_xyz
  else offset_xyz.

(** lines 202-254; [keys] is [pygame.key.get_pressed()].  The result is
    the helper, the environment and the returned observations. *)
Definition update (self : FreeCamHelper) (keys : key -> bool) (env : Env)
  (step_result : Obs) (update_idx : Z) : FreeCamHelper * Env * Obs :=
  let toggles := keys K_z && (update_idx - _last_pressed self >? 60)%Z in
  let mode := if toggles then negb (_is_free_cam_mode self)
              else _is_free_cam_mode self in
  let last_pressed := if toggles then update_idx else _last_pressed self in
  if mode then
    let offset_rpy := scale3 (1 # 10) (offset_rpy_of keys) in
    let offset_xyz := scale3 (1 # 10) (offset_xyz_of keys) in
    let free_rpy := add3 (_free_rpy self) offset_rpy in
    let free_xyz := add3 (_free_xyz self) offset_xyz in
    let free_rpy := if keys K_b then zeros3 else free_rpy in
    let free_xyz := if keys K_b then zeros3 else free_xyz in
    let trans := transformation_from free_rpy free_xyz in
    let env := set_third_rgb_transformation trans env in
    ({| _is_free_cam_mode := mode;
        _last_pressed := last_pressed;
        _free_rpy := free_rpy;
        _free_xyz := free_xyz |},
     env, get_sensor_observations env)
  else
    ({| _is_free_cam_mode := mode;
        _last_pressed := last_pressed;
        _free_rpy := _free_rpy self;
        _free_xyz := _free_xyz self |},
     env, step_result).

(** The helper after a sequence of calls of [update], each with the keys
    pressed, the environment, the observations and the update index that
    it is given. *)
Fixpoint updates (self : FreeCamHelper)
  (calls : list ((key -> bool) * Env * Obs * Z)) : FreeCamHelper :=
  match calls with
  | [] => self
  | (keys, env, step_result, update_idx) :: rest =>
      updates (fst (fst (update self keys env step_result update_idx))) rest
  end.

(** The update indices at which the calls switched the camera mode. *)
Fixpoint switches (self : FreeCamHelper)
  (calls : list ((key -> bool) * Env * Obs * Z)) : list Z :=
  match calls with
  | [] => []
  | (keys, env, step_result, update_idx) :: rest =>
      let self' := fst (fst (update self keys env step_result update_idx)) in
      if Bool.eqb (_is_free_cam_mode self') (_is_free_cam_mode self)
      then switches self' rest
      else update_idx :: switches self' rest
  end.

End FreeCam.

(** ** More vocabulary for the exploration *)

(** The number of calls of [play_env] and of [integrate_transform] that a
    log records. *)
Definition count_calls (l : list event) : nat :=
  List.length (filter (fun e => match e with
                                | Enter _ _ _ => true
                                | _ => false
                                end) l).

Definition count_integrations (l : list event) : nat :=
  List.length (filter (fun e => match e with
                                | Integrate _ _ _ _ => true
                                | _ => false
                                end) l).

(** The pose [q] would not be appended to [visit]: it is recorded there
    or some recorded point is within both thresholds of it. *)
Definition covered (pow_half : Q -> Q) (visit : list point) (q : Robot)
  : Prop :=
  In (point_of q) visit
  \/ exists p : point,
       In p visit
       /\ within_threshold pow_half p (base_pos q) (base_rot q) = true.

(** ** More vocabulary for the helpers *)

Open Scope string_scope.

(** The name that lines 137-143 give to [name]: prefixed with the agent
    when the simulator has more than one robot. *)
Definition agent_name (env : InputEnv) (agent_to_control : Z)
  (name : string) : string :=
  let agent_k := "AGENT_" ++ py_str agent_to_control in
  if (1 <? robots_mgr env)%nat then agent_k ++ "_" ++ name else name.

(** The object [inner] under a stack of wrappers, outermost first: each
    layer holds the next one under [fst layer] beside the attributes
    [snd layer]. *)
Definition wrap_all (layers : list (string * list (string * pyobj)))
  (inner : pyobj) : pyobj :=
  fold_right (fun layer v => wrap (fst layer) (snd layer) v) inner layers.

(** A wrapper layer that [get_wrapped_prop] looks through for [prop]: it
    holds the wrapped object under [venv] or [env], has no attribute
    [prop], and no [venv] besides an [env]. *)
Definition transparent (prop : string)
  (layer : string * list (string * pyobj)) : Prop :=
  dict_get prop (snd layer) = None
  /\ fst layer <> prop
  /\ (fst layer = "venv"
      \/ (fst layer = "env" /\ dict_get "venv" (snd layer) = None)).

(** The search of [get_wrapped_prop] for [prop] leads from [v] to [o]:
    [o] is [v], or it is found from an object without [prop] by following
    [venv], or [env] where there is no [venv]. *)
Inductive unwraps_to (prop : string) : pyobj -> pyobj -> Prop :=
| unwraps_here (v : pyobj) : unwraps_to prop v v
| unwraps_venv (v inner o : pyobj) :
    attr v prop = None -> attr v "venv" = Some inner ->
    unwraps_to prop inner o -> unwraps_to prop v o
| unwraps_env (v inner o : pyobj) :
    attr v prop = None -> attr v "venv" = None ->
    attr v "env" = Some inner ->
    unwraps_to prop inner o -> unwraps_to prop v o.

Close Scope string_scope.

(** The switches of the camera mode are more than 60 updates apart,
    counted from [last]. *)
Fixpoint gaps_above_60 (last : Z) (l : list Z) : Prop :=
  match l with
  | [] => True
  | x :: l' => (60 < x - last)%Z /\ gaps_above_60 x l'
  end.

(** The offsets that one call of [update] can add to an array: nothing,
    or one tenth along one axis, in either direction. *)
Definition unit_steps : list list3 :=
  [ scale3 (1 # 10) zeros3;
    scale3 (1 # 10) (add_at 0 1 zeros3);
    scale3 (1 # 10) (add_at 0 (- (1)) zeros3);
    scale3 (1 # 10) (add_at 1 1 zeros3);
    scale3 (1 # 10) (add_at 1 (- (1)) zeros3);
    scale3 (1 # 10) (add_at 2 1 zeros3);
    scale3 (1 # 10) (add_at 2 (- (1)) zeros3) ].





(** ** Sample inputs of the helpers *)

Module SampleInput.

Local Open Scope string_scope.

(** A manipulation task with one robot. *)
Definition spot_env : InputEnv :=
  {| robots_mgr := 1;
     action_space_spaces :=
       [("ARM_ACTION", [("arm_action", [7%nat]); ("grip_action", [1%nat])]);
        ("BASE_VELOCITY", [("base_vel", [2%nat])])];
     task_actions := [("ARM_ACTION", true); ("BASE_VELOCITY", false)] |}.

(** The navigation task of [DEFAULT_CFG]: the base velocity alone. *)
Definition nav_env : InputEnv :=
  {| robots_mgr := 1;
     action_space_spaces := [("BASE_VELOCITY", [("base_vel", [2%nat])])];
     task_actions := [("BASE_VELOCITY", false)] |}.

(** A task with two robots. *)
Definition two_agents_env : InputEnv :=
  {| robots_mgr := 2;
     action_space_spaces :=
       [("AGENT_0_ARM_ACTION",
         [("AGENT_0_arm_action", [7%nat]); ("AGENT_0_grip_action", [1%nat])]);
        ("AGENT_0_BASE_VELOCITY", [("AGENT_0_base_vel", [2%nat])]);
        ("AGENT_1_ARM_ACTION",
         [("AGENT_1_arm_action", [7%nat]); ("AGENT_1_grip_action", [1%nat])]);
        ("AGENT_1_BASE_VELOCITY", [("AGENT_1_base_vel", [2%nat])])];
     task_actions :=
       [("AGENT_0_ARM_ACTION", true); ("AGENT_0_BASE_VELOCITY", false);
        ("AGENT_1_ARM_ACTION", true); ("AGENT_1_BASE_VELOCITY", false)] |}.

(** A simulator wrapped twice, as a vectorised environment does. *)
Definition sim_object : pyobj := PyObject [("robot", PyValue 7)].

Definition wrapped_env : pyobj :=
  wrap_all [("venv", [("num_envs", PyValue 1)]); ("env", [])]
    (PyObject [("sim", sim_object); ("env", PyNone)]).


End SampleInput.

(** * Properties *)


(** ** [distance_angle] *)













(** ** [play_env] unfolded *)

Section PlayEnvFacts.

Variable pow_half : Q -> Q.
Variable sim : Simulator.

Lemma robot_eta (r : Robot) :
  {| base_pos := base_pos r; base_rot := base_rot r |} = r.
Proof. destruct r; reflexivity. Qed.

Lemma robot_of_point_of (r : Robot) : robot_of (point_of r) = r.
Proof. destruct r as [[x y z] rot]; reflexivity. Qed.

Lemma candidate_eq (level : Z) (before : Robot) (a : Z * Z) (s : state) :
  candidate pow_half sim level (base_pos before) (base_rot before) a s
  = (Ret (candidate_flag pow_half sim before a (visit_pos_rot s)),
     candidate_state pow_half sim level before a s).
Proof.
  unfold candidate, candidate_state, candidate_visit, candidate_events,
    candidate_flag, moved, bind,
    modify_robot, get_robot, emit, get_visit_pos_rot, append_point, ret,
    with_base_pos, with_base_rot, linear_velocity_of, angular_velocity_of.
  cbn [robot visit_pos_rot log base_pos base_rot].
  rewrite robot_eta.
  destruct (scan_visited _ _ _ _);
    cbn [robot visit_pos_rot log base_pos base_rot];
    rewrite <- ?app_assoc; reflexivity.
Qed.

Lemma play_env_S (fuel : nat) (args : Args) (level : Z) (flag : bool)
  (s : state) :
  play_env pow_half sim (S fuel) args level flag s
  = let s0 := entered level flag s in
    let before := robot s in
    if early_exit args then (Ret None, s0)
    else if negb (clear sim before) || negb flag then (Ret (Some 0%Z), s0)
    else
      let f1 :=
        candidate_flag pow_half sim before (0, 1)%Z (visit_pos_rot s0) in
      let s1 := candidate_state pow_half sim level before (0, 1)%Z s0 in
      continue_with 1 (play_env pow_half sim fuel args (level + 1) f1 s1)
        (fun ans1 s1' =>
           let f2 :=
             candidate_flag pow_half sim before (1, 0)%Z
               (visit_pos_rot s1') in
           let s2 := candidate_state pow_half sim level before (1, 0)%Z s1' in
           continue_with ans1
             (play_env pow_half sim fuel args (level + 1) f2 s2)
             (fun ans2 s2' => (Ret (Some ans2), s2'))).
Proof.
  cbn [play_env]. unfold bind at 1. unfold get_robot at 1.
  unfold bind at 1. unfold emit at 1.
  fold (entered level flag s).
  unfold early_exit. cbn [List.length Z.of_nat].
  destruct (save_actions args && (0 >? save_actions_count args)%Z);
    [reflexivity |].
  assert (Hlimit : match (if no_render args
                          then Some DEFAULT_RENDER_STEPS_LIMIT else None) with
                   | Some limit => (0 >? limit)%Z
                   | None => false
                   end = false) by (destruct (no_render args); reflexivity).
  rewrite Hlimit. clear Hlimit.
  unfold bind at 1. unfold get_robot at 1.
  cbn [entered robot].
  unfold clear.
  destruct (is_navigable sim (base_pos (robot s))); cbn [negb orb andb];
    [| reflexivity].
  destruct (contact_test sim (robot s)); cbn [negb orb andb];
    [reflexivity |].
  destruct flag; cbn [negb]; [| reflexivity].
  unfold base_actions. cbn [for_each]. unfold trial.
  unfold bind, ret, raise. rewrite candidate_eq.
  fold (entered level true s).
  destruct (play_env pow_half sim fuel args (level + 1) _ _)
    as [[[n1 |] | e1 |] s1']; cbn [continue_with add_result ret raise];
    try reflexivity.
  rewrite candidate_eq.
  destruct (play_env pow_half sim fuel args (level + 1) _ _)
    as [[[n2 |] | e2 |] s2']; cbn [continue_with add_result ret raise];
    reflexivity.
Qed.

Variable args : Args.

Lemma play_env_run (fuel : nat) :
  forall (level : Z) (flag : bool) (s : state),
  exists events : list event,
    run pow_half sim args level flag (robot s) (visit_pos_rot s) events
      (fst (play_env pow_half sim fuel args level flag s))
      (robot (snd (play_env pow_half sim fuel args level flag s)))
      (visit_pos_rot (snd (play_env pow_half sim fuel args level flag s)))
    /\ log (snd (play_env pow_half sim fuel args level flag s))
       = log s ++ events.
Proof.
  induction fuel as [| fuel IH]; intros level flag s.
  - exists []. split; [apply run_out_of_fuel | symmetry; apply app_nil_r].
  - rewrite play_env_S. cbv zeta.
    destruct (early_exit args) eqn:Hexit.
    { eexists. split; [apply run_early_exit; assumption | reflexivity]. }
    destruct (negb (clear sim (robot s)) || negb flag) eqn:Hstop.
    { eexists. split; [apply run_stop; assumption | reflexivity]. }
    apply orb_false_iff in Hstop. destruct Hstop as [Hclear Hflag].
    apply negb_false_iff in Hclear, Hflag. subst flag.
    destruct (IH (level + 1)%Z
                (candidate_flag pow_half sim (robot s) (0, 1)%Z
                   (visit_pos_rot (entered level true s)))
                (candidate_state pow_half sim level (robot s) (0, 1)%Z
                   (entered level true s))) as [ev1 [R1 L1]].
    destruct (play_env pow_half sim fuel args (level + 1) _ _)
      as [o1 s1'].
    cbn [fst snd candidate_state entered robot visit_pos_rot log] in R1, L1.
    destruct o1 as [[n1 |] | e1 |]; cbn [continue_with fst snd];
      try (eexists; split;
           [apply (run_first_aborts _ _ _ _ _ _ _ _ _ _ Hexit Hclear R1);
            reflexivity
           | rewrite L1; cbn [app]; rewrite <- !app_assoc; reflexivity]).
    destruct (IH (level + 1)%Z
                (candidate_flag pow_half sim (robot s) (1, 0)%Z
                   (visit_pos_rot s1'))
                (candidate_state pow_half sim level (robot s) (1, 0)%Z s1'))
      as [ev2 [R2 L2]].
    destruct (play_env pow_half sim fuel args (level + 1) _ _)
      as [o2 s2'].
    cbn [fst snd candidate_state entered robot visit_pos_rot log] in R2, L2.
    destruct o2 as [[n2 |] | e2 |]; cbn [continue_with fst snd];
      try (eexists; split;
           [apply (run_second_aborts _ _ _ _ _ _ _ _ _ _ _ _ _ _
                     Hexit Hclear R1 R2); reflexivity
           | rewrite L2, L1; cbn [app]; rewrite <- !app_assoc; reflexivity]).
    eexists; split;
      [apply (run_both _ _ _ _ _ _ _ _ _ _ _ _ _ _ Hexit Hclear R1 R2)
      | rewrite L2, L1; cbn [app]; rewrite <- !app_assoc; reflexivity].
Qed.

End PlayEnvFacts.

(** ** Logs *)

Lemma appended_app (a b : list event) :
  appended (a ++ b) = appended a ++ appended b.
Proof.
  induction a as [| e a IH]; [reflexivity |].
  destruct e; cbn [app appended]; rewrite IH; reflexivity.
Qed.

Lemma moves_app (a b : list event) : moves (a ++ b) = moves a ++ moves b.
Proof.
  induction a as [| e a IH]; [reflexivity |].
  destruct e; cbn [app moves]; rewrite IH; reflexivity.
Qed.

Lemma integrations_at_app (level : Z) (a b : list event) :
  integrations_at level (a ++ b)
  = integrations_at level a ++ integrations_at level b.
Proof.
  induction a as [| e a IH]; [reflexivity |].
  destruct e; cbn [app integrations_at]; rewrite IH; try reflexivity.
  destruct (level0 =? level)%Z; reflexivity.
Qed.

Lemma calls_at_app (level : Z) (a b : list event) :
  calls_at level (a ++ b) = calls_at level a ++ calls_at level b.
Proof.
  induction a as [| e a IH]; [reflexivity |].
  destruct e; cbn [app calls_at]; rewrite IH; try reflexivity.
  destruct (level0 =? level)%Z; reflexivity.
Qed.

Ltac run_induction H :=
  induction H as
    [ level flag r visit
    | level flag r visit Hexit
    | level flag r visit Hexit Hstop
    | level r visit ev1 o1 r1 visit1 Hexit Hclear R1 IH1 Ho1
    | level r visit ev1 n1 r1 visit1 ev2 o2 r2 visit2
        Hexit Hclear R1 IH1 R2 IH2 Ho2
    | level r visit ev1 n1 r1 visit1 ev2 n2 r2 visit2
        Hexit Hclear R1 IH1 R2 IH2 ].

Section RunFacts.

Variable pow_half : Q -> Q.
Variable sim : Simulator.
Variable args : Args.

Local Abbreviation runs := (run pow_half sim args).
Local Abbreviation events_of := (candidate_events pow_half sim).
Local Abbreviation visit_of := (candidate_visit pow_half sim).
Local Abbreviation flag_of := (candidate_flag pow_half sim).

Lemma appended_candidate_events (level : Z) (r : Robot) (a : Z * Z)
  (visit : list point) :
  visit ++ appended (events_of level r a visit)
  = visit_of r a visit.
Proof.
  unfold candidate_events, candidate_visit.
  cbn [appended].
  destruct (flag_of r a visit); cbn [appended];
    [reflexivity | apply app_nil_r].
Qed.

Lemma integrations_at_candidate_events (L level : Z) (r : Robot)
  (a : Z * Z) (visit : list point) :
  integrations_at L (events_of level r a visit)
  = if (level =? L)%Z
    then [(linear_velocity_of a, angular_velocity_of a, r)] else [].
Proof.
  unfold candidate_events. cbn [integrations_at].
  destruct (flag_of r a visit); destruct (level =? L)%Z; reflexivity.
Qed.

Lemma calls_at_candidate_events (L level : Z) (r : Robot) (a : Z * Z)
  (visit : list point) :
  calls_at L (events_of level r a visit) = [].
Proof.
  unfold candidate_events. cbn [calls_at].
  destruct (flag_of r a visit); reflexivity.
Qed.

(** The visited list only grows, by the points the log says. *)
Lemma run_visit level flag r visit events o r' visit' :
  runs level flag r visit events o r' visit' ->
  visit' = visit ++ appended events.
Proof.
  induction 1 as
    [ level flag r visit
    | level flag r visit Hexit
    | level flag r visit Hexit Hstop
    | level r visit ev1 o1 r1 visit1 Hexit Hclear R1 IH1 Ho1
    | level r visit ev1 n1 r1 visit1 ev2 o2 r2 visit2
        Hexit Hclear R1 IH1 R2 IH2 Ho2
    | level r visit ev1 n1 r1 visit1 ev2 n2 r2 visit2
        Hexit Hclear R1 IH1 R2 IH2 ];
    cbn [appended]; rewrite ?app_nil_r; try reflexivity.
  - rewrite appended_app, app_assoc, appended_candidate_events. exact IH1.
  - rewrite !appended_app, !app_assoc, appended_candidate_events.
    rewrite <- IH1, appended_candidate_events. exact IH2.
  - rewrite !appended_app, !app_assoc, appended_candidate_events.
    rewrite <- IH1, appended_candidate_events. exact IH2.
Qed.

(** A call logs nothing below its own level. *)
Lemma run_levels level flag r visit events o r' visit' :
  runs level flag r visit events o r' visit' ->
  forall L : Z, (L < level)%Z ->
    integrations_at L events = [] /\ calls_at L events = [].
Proof.
  induction 1 as
    [ level flag r visit
    | level flag r visit Hexit
    | level flag r visit Hexit Hstop
    | level r visit ev1 o1 r1 visit1 Hexit Hclear R1 IH1 Ho1
    | level r visit ev1 n1 r1 visit1 ev2 o2 r2 visit2
        Hexit Hclear R1 IH1 R2 IH2 Ho2
    | level r visit ev1 n1 r1 visit1 ev2 n2 r2 visit2
        Hexit Hclear R1 IH1 R2 IH2 ];
    intros L HL; cbn [integrations_at calls_at];
    assert (Hne : (level =? L)%Z = false) by (apply Z.eqb_neq; lia);
    rewrite ?Hne; try (split; reflexivity).
  - destruct (IH1 L ltac:(lia)) as [I1 C1].
    rewrite integrations_at_app, calls_at_app,
      integrations_at_candidate_events, calls_at_candidate_events,
      Hne, I1, C1.
    split; reflexivity.
  - destruct (IH1 L ltac:(lia)) as [I1 C1].
    destruct (IH2 L ltac:(lia)) as [I2 C2].
    rewrite !integrations_at_app, !calls_at_app,
      !integrations_at_candidate_events, !calls_at_candidate_events,
      Hne, I1, C1, I2, C2.
    split; reflexivity.
  - destruct (IH1 L ltac:(lia)) as [I1 C1].
    destruct (IH2 L ltac:(lia)) as [I2 C2].
    rewrite !integrations_at_app, !calls_at_app,
      !integrations_at_candidate_events, !calls_at_candidate_events,
      Hne, I1, C1, I2, C2.
    split; reflexivity.
Qed.

Lemma abort_not_number (o : outcome (option Z)) : is_number (abort o) = false.
Proof. destruct o; reflexivity. Qed.

(** With the recording guard off, a runs ends with a number or runs out of
    fuel. *)
Lemma run_number_or_fuel level flag r visit events o r' visit' :
  runs level flag r visit events o r' visit' ->
  early_exit args = false ->
  o = OutOfFuel \/ exists n : Z, o = Ret (Some n).
Proof.
  intros H Hoff. run_induction H; try (right; eexists; reflexivity);
    try (left; reflexivity); try congruence.
  - destruct IH1 as [-> | [n ->]]; [left; reflexivity | discriminate].
  - destruct IH2 as [-> | [n ->]]; [left; reflexivity | discriminate].
Qed.

(** *** The count *)

Lemma count_clear_app (a b : list point) :
  count_clear sim (a ++ b) = (count_clear sim a + count_clear sim b)%Z.
Proof.
  unfold count_clear. rewrite filter_app, length_app. lia.
Qed.

Lemma count_clear_candidate_events (level : Z) (r : Robot) (a : Z * Z)
  (visit : list point) :
  count_clear sim (appended (events_of level r a visit))
  = if clear sim (moved sim r a) && flag_of r a visit
    then 1%Z else 0%Z.
Proof.
  unfold candidate_events, count_clear. cbn [appended].
  destruct (flag_of r a visit); cbn [appended filter];
    rewrite ?andb_false_r; [| reflexivity].
  rewrite robot_of_point_of, andb_true_r.
  destruct (clear sim (moved sim r a)); reflexivity.
Qed.

Lemma run_count level flag r visit events o r' visit' :
  runs level flag r visit events o r' visit' ->
  forall n : Z, o = Ret (Some n) ->
    n = ((if clear sim r && flag then 1 else 0)
         + count_clear sim (appended events))%Z.
Proof.
  intros H. run_induction H; intros n Hn.
  - discriminate.
  - discriminate.
  - injection Hn as <-. cbn [appended].
    destruct (clear sim r), flag; try discriminate; reflexivity.
  - destruct o1 as [[?|]|?|]; discriminate.
  - destruct o2 as [[?|]|?|]; discriminate.
  - assert (Hn' : n = (1 + n1 + n2)%Z) by congruence. subst n.
    change (appended (Enter level r true :: ?l)) with (appended l).
    rewrite Hclear.
    rewrite !appended_app, !count_clear_app,
      !count_clear_candidate_events.
    rewrite (IH1 n1 eq_refl), (IH2 n2 eq_refl).
    change (true && true) with true.
    destruct (clear sim (moved sim r (0, 1)%Z) && _),
      (clear sim (moved sim r (1, 0)%Z) && _). all: lia.
Qed.

(** *** The height *)

Lemma height_moved (r : Robot) (a : Z * Z) :
  height (moved sim r a) = height r.
Proof. reflexivity. Qed.

Lemma run_height level flag r visit events o r' visit' :
  runs level flag r visit events o r' visit' ->
  height r' = height r
  /\ Forall (fun q => height q = height r) (moves events)
  /\ Forall (fun p => height (robot_of p) = height r) (appended events).
Proof.
  intros H. run_induction H; cbn [moves appended];
    try (split; [reflexivity | split; constructor]).
  - destruct IH1 as (F1 & M1 & A1). rewrite height_moved in *.
    rewrite moves_app, appended_app.
    unfold candidate_events. cbn [moves appended].
    split; [exact F1 |].
    split.
    + destruct (flag_of r (0, 1)%Z visit); cbn [moves];
        constructor; auto using height_moved.
    + destruct (flag_of r (0, 1)%Z visit); cbn [appended app];
        [constructor; [rewrite robot_of_point_of; reflexivity |] |];
        exact A1.
  - destruct IH1 as (F1 & M1 & A1). destruct IH2 as (F2 & M2 & A2).
    rewrite height_moved in *.
    rewrite !moves_app, !appended_app.
    unfold candidate_events. cbn [moves appended].
    split; [exact F2 |].
    split.
    + destruct (flag_of r (0, 1)%Z visit),
        (flag_of r (1, 0)%Z visit1); cbn [moves app];
        constructor; auto using height_moved;
        apply Forall_app; split; auto; constructor; auto using height_moved.
    + destruct (flag_of r (0, 1)%Z visit),
        (flag_of r (1, 0)%Z visit1); cbn [appended app];
        repeat first
          [ exact A2
          | apply Forall_app; split; [exact A1 |]
          | constructor; [rewrite robot_of_point_of; reflexivity |] ].
  - destruct IH1 as (F1 & M1 & A1). destruct IH2 as (F2 & M2 & A2).
    rewrite height_moved in *.
    rewrite !moves_app, !appended_app.
    unfold candidate_events. cbn [moves appended].
    split; [exact F2 |].
    split.
    + destruct (flag_of r (0, 1)%Z visit),
        (flag_of r (1, 0)%Z visit1); cbn [moves app];
        constructor; auto using height_moved;
        apply Forall_app; split; auto; constructor; auto using height_moved.
    + destruct (flag_of r (0, 1)%Z visit),
        (flag_of r (1, 0)%Z visit1); cbn [appended app];
        repeat first
          [ exact A2
          | apply Forall_app; split; [exact A1 |]
          | constructor; [rewrite robot_of_point_of; reflexivity |] ].
Qed.

End RunFacts.

(** ** The scan and the distance between recorded points *)

Lemma square_of_difference_sym (a b : Q) : (a - b) ^ 2 = (b - a) ^ 2.
Proof.
  destruct a as [na da], b as [nb db].
  unfold Qpower, Qpower_positive, pow_pos, Qminus, Qplus, Qopp, Qmult.
  cbn [Qnum Qden]. f_equal.
  - ring.
  - rewrite (Pos.mul_comm da db). reflexivity.
Qed.

Section ScanFacts.

Variable pow_half : Q -> Q.

Local Abbreviation is_scanned := (scanned pow_half).
Local Abbreviation is_apart := (apart pow_half).
Local Abbreviation scan := (scan_visited pow_half).
Local Abbreviation within := (within_threshold pow_half).

Lemma position_distance_sym (p q : point) :
  position_distance pow_half p q = position_distance pow_half q p.
Proof.
  destruct p as [[[p0 p1] p2] pr], q as [[[q0 q1] q2] qr].
  unfold position_distance, diff_pos_of, robot_of, vec2list.
  cbn [fst snd base_pos vx vy vz].
  rewrite (square_of_difference_sym p0 q0), (square_of_difference_sym p1 q1),
    (square_of_difference_sym p2 q2).
  reflexivity.
Qed.

Lemma angular_distance_sym (p q : point) :
  angular_distance p q = angular_distance q p.
Proof.
  unfold angular_distance, distance_angle.
  rewrite (Qabs_Qminus (snd q) (snd p)). reflexivity.
Qed.

Lemma apart_sym (p q : point) : is_apart p q -> is_apart q p.
Proof.
  unfold apart.
  rewrite (position_distance_sym p q), (angular_distance_sym p q).
  exact (fun H => H).
Qed.

Lemma within_threshold_false (p q : point) :
  within p (base_pos (robot_of q)) (base_rot (robot_of q)) = false
  <-> is_apart p q.
Proof.
  unfold within_threshold, apart, position_distance,
    angular_distance, has_visited_threshold_pos, has_visited_threshold_rot.
  destruct p as [pos rot]. cbn [fst snd].
  assert (Hrot : base_rot (robot_of q) = snd q)
    by (destruct q as [[[? ?] ?] ?]; reflexivity).
  rewrite Hrot.
  rewrite andb_false_iff.
  split; (intros [H | H]; [left | right]).
  - apply Qnot_le_lt. intro Hle. apply Qle_bool_iff in Hle. congruence.
  - apply Qnot_le_lt. intro Hle. apply Qle_bool_iff in Hle. congruence.
  - destruct (Qle_bool _ _) eqn:E; [| reflexivity].
    apply Qle_bool_iff in E. lra.
  - destruct (Qle_bool _ _) eqn:E; [| reflexivity].
    apply Qle_bool_iff in E. lra.
Qed.

(** The scan succeeds exactly when every recorded point is [is_apart] from
    the candidate: a point is appended only then. *)
Lemma scan_visited_true (visit : list point) (q : point) :
  scan visit (base_pos (robot_of q)) (base_rot (robot_of q)) = true
  <-> forall p : point, In p visit -> is_apart p q.
Proof.
  induction visit as [| pt rest IH]; cbn [scan_visited In].
  - split; [intros _ x Hx; destruct Hx | reflexivity].
  - destruct (within pt _ _) eqn:E.
    + split; [discriminate |].
      intros H. specialize (H pt (or_introl eq_refl)).
      apply within_threshold_false in H. congruence.
    + rewrite IH. split.
      * intros H x [<- | Hx]; [apply within_threshold_false; exact E | auto].
      * intros H x Hx. apply H. right. exact Hx.
Qed.

Lemma scanned_nil : is_scanned [].
Proof. intros l1 l2 p H. destruct l1; discriminate. Qed.

Lemma scanned_singleton (p : point) : is_scanned [p].
Proof.
  intros l1 l2 q H. destruct l1 as [| x l1].
  - reflexivity.
  - destruct l1; discriminate.
Qed.

Lemma scanned_prefix (l l' : list point) : is_scanned (l ++ l') -> is_scanned l.
Proof.
  intros H l1 l2 p E. apply (H l1 (l2 ++ l') p).
  rewrite E, <- app_assoc. reflexivity.
Qed.

Lemma scanned_snoc (l : list point) (q : point) :
  is_scanned l ->
  scan l (base_pos (robot_of q)) (base_rot (robot_of q)) = true ->
  is_scanned (l ++ [q]).
Proof.
  intros Hl Hq l1 l2 p E.
  destruct l2 as [| x l2].
  - apply app_inj_tail in E. destruct E as [-> ->]. exact Hq.
  - apply (Hl l1 (removelast (x :: l2)) p).
    assert (Hne : p :: x :: l2 <> []) by discriminate.
    rewrite (app_removelast_last q (l := x :: l2)) in E by discriminate.
    change (l ++ [q]
            = l1 ++ (p :: removelast (x :: l2)) ++ [last (x :: l2) q]) in E.
    rewrite app_assoc in E. apply app_inj_tail in E. tauto.
Qed.

(** Any two entries of a is_scanned list are is_apart. *)
Lemma scanned_pairwise_apart (l : list point) :
  is_scanned l -> pairwise_apart pow_half l.
Proof.
  intros Hl.
  assert (Hlt : forall i j p q, (i < j)%nat ->
            nth_error l i = Some p -> nth_error l j = Some q -> is_apart p q).
  { intros i j p q Hij Hp Hq.
    destruct (nth_error_split l j Hq) as (l1 & l2 & E & Hlen).
    pose proof (Hl l1 l2 q E) as Hscan.
    rewrite scan_visited_true in Hscan. apply Hscan.
    rewrite E, nth_error_app1 in Hp by lia.
    eapply nth_error_In; eassumption. }
  intros i j p q Hij Hp Hq.
  destruct (Nat.lt_total i j) as [H | [H | H]].
  - eapply Hlt; eassumption.
  - contradiction.
  - apply apart_sym. eapply Hlt; eassumption.
Qed.

End ScanFacts.

Section Exploration.

Variable pow_half : Q -> Q.
Variable sim : Simulator.
Variable args : Args.

Local Abbreviation runs := (run pow_half sim args).
Local Abbreviation is_scanned := (scanned pow_half).
Local Abbreviation events_of := (candidate_events pow_half sim).
Local Abbreviation visit_of := (candidate_visit pow_half sim).
Local Abbreviation flag_of := (candidate_flag pow_half sim).
Local Abbreviation explore := (play_env pow_half sim).

Lemma candidate_visit_scanned (r : Robot) (a : Z * Z) (visit : list point) :
  is_scanned visit -> is_scanned (visit_of r a visit).
Proof.
  intros H. unfold candidate_visit.
  destruct (flag_of r a visit) eqn:E; [| exact H].
  apply scanned_snoc; [exact H |].
  rewrite robot_of_point_of. exact E.
Qed.

Lemma run_scanned level flag r visit events o r' visit' :
  runs level flag r visit events o r' visit' ->
  is_scanned visit -> is_scanned visit'.
Proof.
  intros H. run_induction H; auto using candidate_visit_scanned.
Qed.

(** The visited list at every point of a runs: the initial list and the
    points appended so far. *)
Lemma run_scanned_at_every_point level flag r visit events o r' visit' :
  runs level flag r visit events o r' visit' ->
  is_scanned visit ->
  forall before after : list event,
    events = before ++ after -> is_scanned (visit ++ appended before).
Proof.
  intros H Hs before after E.
  pose proof (run_scanned _ _ _ _ _ _ _ _ H Hs) as Hfinal.
  rewrite (run_visit _ _ _ _ _ _ _ _ _ _ _ H), E, appended_app, app_assoc
    in Hfinal.
  exact (scanned_prefix _ _ _ Hfinal).
Qed.

(** *** A call that passes the checks *)

Lemma run_proceeds level flag r visit events o r' visit' :
  runs level flag r visit events o r' visit' ->
  is_number o = true ->
  early_exit args = false -> clear sim r = true -> flag = true ->
  integrations_at level events
  = [(linear_velocity_of (0, 1)%Z, angular_velocity_of (0, 1)%Z, r);
     (linear_velocity_of (1, 0)%Z, angular_velocity_of (1, 0)%Z, r)]
  /\ map fst (calls_at (level + 1) events)
     = [moved sim r (0, 1)%Z; moved sim r (1, 0)%Z].
Proof.
  intros H Ho Hoff Hc Hf.
  destruct H as
    [ level flag r visit
    | level flag r visit Hexit
    | level flag r visit Hexit Hstop
    | level r visit ev1 o1 r1 visit1 Hexit Hclear R1 Ho1
    | level r visit ev1 n1 r1 visit1 ev2 o2 r2 visit2
        Hexit Hclear R1 R2 Ho2
    | level r visit ev1 n1 r1 visit1 ev2 n2 r2 visit2
        Hexit Hclear R1 R2 ].
  - discriminate.
  - congruence.
  - rewrite Hc, Hf in Hstop. discriminate.
  - rewrite abort_not_number in Ho. discriminate.
  - rewrite abort_not_number in Ho. discriminate.
  - destruct (run_levels _ _ _ _ _ _ _ _ _ _ _ R1 level ltac:(lia))
      as [I1 _].
    destruct (run_levels _ _ _ _ _ _ _ _ _ _ _ R2 level ltac:(lia))
      as [I2 _].
    assert (Hne : (level =? level + 1)%Z = false) by (apply Z.eqb_neq; lia).
    cbn [integrations_at calls_at]. rewrite Hne.
    rewrite !integrations_at_app, !calls_at_app,
      !integrations_at_candidate_events, !calls_at_candidate_events,
      Z.eqb_refl, I1, I2.
    split; [reflexivity |].
    cbn [app].
    (* each recursive call that returned a number logged its entry first *)
    assert (Hentry : forall lv f q v ev n q' v',
              runs lv f q v ev (Ret (Some n)) q' v' ->
              exists rest, ev = Enter lv q f :: rest
                           /\ calls_at lv rest = []).
    { clear. intros lv f q v ev n q' v' R.
      inversion R; subst.
      - eexists; split; [reflexivity | reflexivity].
      - destruct o1 as [[?|]|?|]; discriminate.
      - destruct o2 as [[?|]|?|]; discriminate.
      - eexists; split; [reflexivity |].
        match goal with
        | R1 : runs _ _ _ _ ?e1 _ _ _, R2 : runs _ _ _ _ ?e2 _ _ _ |- _ =>
            destruct (run_levels _ _ _ _ _ _ _ _ _ _ _ R1 lv ltac:(lia))
              as [_ C1];
            destruct (run_levels _ _ _ _ _ _ _ _ _ _ _ R2 lv ltac:(lia))
              as [_ C2]
        end.
        rewrite !calls_at_app, !calls_at_candidate_events, C1, C2.
        reflexivity. }
    destruct (Hentry _ _ _ _ _ _ _ _ R1) as (rest1 & -> & C1).
    destruct (Hentry _ _ _ _ _ _ _ _ R2) as (rest2 & -> & C2).
    cbn [calls_at]. rewrite Z.eqb_refl, C1, C2. reflexivity.
Qed.

(** Whatever a call logs at its own level was integrated from the pose at
    its entry. *)
Lemma run_integrates_from_entry level flag r visit events o r' visit' :
  runs level flag r visit events o r' visit' ->
  Forall (fun i => snd i = r) (integrations_at level events).
Proof.
  intros H.
  destruct H as
    [ level flag r visit
    | level flag r visit Hexit
    | level flag r visit Hexit Hstop
    | level r visit ev1 o1 r1 visit1 Hexit Hclear R1 Ho1
    | level r visit ev1 n1 r1 visit1 ev2 o2 r2 visit2
        Hexit Hclear R1 R2 Ho2
    | level r visit ev1 n1 r1 visit1 ev2 n2 r2 visit2
        Hexit Hclear R1 R2 ];
    cbn [integrations_at]; try constructor;
    try (destruct (run_levels _ _ _ _ _ _ _ _ _ _ _ R1 level ltac:(lia))
           as [I1 _]);
    try (destruct (run_levels _ _ _ _ _ _ _ _ _ _ _ R2 level ltac:(lia))
           as [I2 _]);
    rewrite ?integrations_at_app, ?integrations_at_candidate_events,
      ?Z.eqb_refl, ?I1, ?I2; cbn [app];
    repeat constructor.
Qed.

(** A call that returns without a recursive call having begun. *)
Lemma run_returns_without_recursing level flag r visit events o r' visit' :
  runs level flag r visit events o r' visit' ->
  (exists v, o = Ret v) ->
  calls_at (level + 1) events = [] ->
  early_exit args = true \/ clear sim r = false \/ flag = false.
Proof.
  intros H [v Hv] Hcalls.
  destruct (early_exit args) eqn:Hoff; [left; reflexivity | right].
  destruct (clear sim r) eqn:Hc; [right | left; reflexivity].
  destruct flag; [| reflexivity].
  assert (Hnum : is_number o = true).
  { destruct (run_number_or_fuel _ _ _ _ _ _ _ _ _ _ _ H Hoff)
      as [-> | [n ->]]; [discriminate | reflexivity]. }
  destruct (run_proceeds _ _ _ _ _ _ _ _ H Hnum Hoff Hc eq_refl) as [_ C].
  rewrite Hcalls in C. discriminate.
Qed.

End Exploration.

(** ** Termination under a bound on the scanned lists *)

Section Termination.

Variable pow_half : Q -> Q.
Variable sim : Simulator.
Variable args : Args.

(** The poses the exploration can meet, and a bound on the length of the
    scanned lists made of them. *)
Variable P : point -> Prop.
Variable N : nat.

Hypothesis guard_off : early_exit args = false.
Hypothesis bounded :
  forall v : list point,
    Forall P v -> scanned pow_half v -> (List.length v <= N)%nat.
Hypothesis closed :
  forall (r : Robot) (a : Z * Z),
    P (point_of r) -> clear sim r = true -> In a base_actions ->
    P (point_of (moved sim r a)).

Lemma candidate_visit_P (r : Robot) (a : Z * Z) (visit : list point) :
  P (point_of r) -> clear sim r = true -> In a base_actions ->
  Forall P visit -> Forall P (candidate_visit pow_half sim r a visit).
Proof.
  intros Hr Hc Ha Hv. unfold candidate_visit.
  destruct (candidate_flag pow_half sim r a visit); [| exact Hv].
  apply Forall_app. split; [exact Hv |].
  constructor; [apply closed; assumption | constructor].
Qed.

Lemma run_P level flag r visit events o r' visit' :
  run pow_half sim args level flag r visit events o r' visit' ->
  P (point_of r) -> Forall P visit -> Forall P visit'.
Proof.
  intros H. run_induction H; intros Hr Hv; try exact Hv.
  - apply IH1; [apply closed | apply candidate_visit_P];
      cbn [base_actions In]; auto.
  - apply IH2; [apply closed | apply candidate_visit_P];
      cbn [base_actions In]; auto.
    apply IH1; [apply closed | apply candidate_visit_P];
      cbn [base_actions In]; auto.
  - apply IH2; [apply closed | apply candidate_visit_P];
      cbn [base_actions In]; auto.
    apply IH1; [apply closed | apply candidate_visit_P];
      cbn [base_actions In]; auto.
Qed.

Lemma run_length level flag r visit events o r' visit' :
  run pow_half sim args level flag r visit events o r' visit' ->
  (List.length visit <= List.length visit')%nat.
Proof.
  intros H. rewrite (run_visit _ _ _ _ _ _ _ _ _ _ _ H), length_app. lia.
Qed.

Lemma candidate_visit_length (r : Robot) (a : Z * Z) (visit : list point) :
  List.length (candidate_visit pow_half sim r a visit)
  = if candidate_flag pow_half sim r a visit
    then S (List.length visit) else List.length visit.
Proof.
  unfold candidate_visit.
  destruct (candidate_flag pow_half sim r a visit); [| reflexivity].
  rewrite length_app. cbn [List.length]. lia.
Qed.

Lemma play_env_enough_fuel (fuel : nat) :
  forall (level : Z) (flag : bool) (s : state),
    P (point_of (robot s)) ->
    Forall P (visit_pos_rot s) ->
    scanned pow_half (visit_pos_rot s) ->
    (flag = false /\ 1 <= fuel
     \/ N + 2 <= fuel + List.length (visit_pos_rot s))%nat ->
    is_number (fst (play_env pow_half sim fuel args level flag s)) = true.
Proof.
  induction fuel as [| fuel IH]; intros level flag s Hr Hv Hs Hfuel.
  - pose proof (bounded _ Hv Hs). lia.
  - rewrite play_env_S. cbv zeta. rewrite guard_off.
    destruct (negb (clear sim (robot s)) || negb flag) eqn:Hstop;
      [reflexivity |].
    apply orb_false_iff in Hstop. destruct Hstop as [Hclear Hflag].
    apply negb_false_iff in Hclear, Hflag. subst flag.
    destruct Hfuel as [[Hf _] | Hfuel]; [discriminate |].
    pose proof (bounded _ Hv Hs) as Hlen.
    (* the first recursive call *)
    set (s1 := candidate_state pow_half sim level (robot s) (0, 1)%Z
                 (entered level true s)).
    set (f1 := candidate_flag pow_half sim (robot s) (0, 1)%Z
                 (visit_pos_rot (entered level true s))).
    assert (Hr1 : P (point_of (robot s1)))
      by (apply closed; cbn [base_actions In]; auto).
    assert (Hv1 : Forall P (visit_pos_rot s1))
      by (apply candidate_visit_P; cbn [base_actions In]; auto).
    assert (Hs1 : scanned pow_half (visit_pos_rot s1))
      by (apply candidate_visit_scanned; exact Hs).
    assert (Hl1 : (List.length (visit_pos_rot s1)
                   = if f1 then S (List.length (visit_pos_rot s))
                     else List.length (visit_pos_rot s))%nat)
      by apply candidate_visit_length.
    assert (Hfuel1 : (f1 = false /\ 1 <= fuel
                      \/ N + 2 <= fuel + List.length (visit_pos_rot s1))%nat).
    { rewrite Hl1.
      destruct f1; [right; lia | left; split; [reflexivity | lia]]. }
    pose proof (IH (level + 1)%Z f1 s1 Hr1 Hv1 Hs1 Hfuel1) as Hn1.
    destruct (play_env_run pow_half sim args fuel (level + 1)%Z f1 s1)
      as (ev1 & R1 & _).
    destruct (play_env pow_half sim fuel args (level + 1) f1 s1)
      as [[[n1 |] | e1 |] s1']; try discriminate.
    cbn [fst snd continue_with] in *.
    pose proof (run_P _ _ _ _ _ _ _ _ R1 Hr1 Hv1) as Hv1'.
    pose proof (run_scanned _ _ _ _ _ _ _ _ _ _ _ R1 Hs1) as Hs1'.
    pose proof (run_length _ _ _ _ _ _ _ _ R1) as Hl1'.
    (* the second recursive call *)
    set (s2 := candidate_state pow_half sim level (robot s) (1, 0)%Z s1').
    set (f2 := candidate_flag pow_half sim (robot s) (1, 0)%Z
                 (visit_pos_rot s1')).
    assert (Hr2 : P (point_of (robot s2)))
      by (apply closed; cbn [base_actions In]; auto).
    assert (Hv2 : Forall P (visit_pos_rot s2))
      by (apply candidate_visit_P; cbn [base_actions In]; auto).
    assert (Hs2 : scanned pow_half (visit_pos_rot s2))
      by (apply candidate_visit_scanned; exact Hs1').
    assert (Hl2 : (List.length (visit_pos_rot s2)
                   = if f2 then S (List.length (visit_pos_rot s1'))
                     else List.length (visit_pos_rot s1'))%nat)
      by apply candidate_visit_length.
    assert (Hfuel2 : (f2 = false /\ 1 <= fuel
                      \/ N + 2 <= fuel + List.length (visit_pos_rot s2))%nat).
    { rewrite Hl2. destruct f1, f2; rewrite Hl1 in Hl1';
        try (right; lia); left; split; try reflexivity; lia. }
    pose proof (IH (level + 1)%Z f2 s2 Hr2 Hv2 Hs2 Hfuel2) as Hn2.
    destruct (play_env pow_half sim fuel args (level + 1) f2 s2)
      as [[[n2 |] | e2 |] s2']; try discriminate.
    reflexivity.
Qed.

End Termination.

(** ** The exploration: counts, visited list, base actions, termination *)

Lemma new_events_app (s s' : state) (events : list event) :
  log s' = log s ++ events -> new_events s s' = events.
Proof.
  intros E. unfold new_events. rewrite E.
  rewrite skipn_app, skipn_all, Nat.sub_diag. reflexivity.
Qed.

(** The run that a call of [play_env] makes. *)
Lemma play_env_new_events pow_half sim args fuel level flag s :
  run pow_half sim args level flag (robot s) (visit_pos_rot s)
    (new_events s (snd (play_env pow_half sim fuel args level flag s)))
    (fst (play_env pow_half sim fuel args level flag s))
    (robot (snd (play_env pow_half sim fuel args level flag s)))
    (visit_pos_rot (snd (play_env pow_half sim fuel args level flag s))).
Proof.
  destruct (play_env_run pow_half sim args fuel level flag s)
    as (events & R & L).
  rewrite (new_events_app _ _ _ L). exact R.
Qed.

Lemma play_env_stops pow_half sim args fuel level flag s :
  early_exit args = false ->
  negb (clear sim (robot s)) || negb flag = true ->
  play_env pow_half sim (S fuel) args level flag s
  = (Ret (Some 0%Z), entered level flag s).
Proof.
  intros Hoff Hstop. rewrite play_env_S. cbv zeta.
  rewrite Hoff, Hstop. reflexivity.
Qed.

Lemma play_env_sum pow_half sim args fuel level s n1 s1 n2 s2 :
  early_exit args = false ->
  clear sim (robot s) = true ->
  play_env pow_half sim fuel args (level + 1)
    (candidate_flag pow_half sim (robot s) (0, 1)%Z (visit_pos_rot s))
    (candidate_state pow_half sim level (robot s) (0, 1)%Z
       (entered level true s))
  = (Ret (Some n1), s1) ->
  play_env pow_half sim fuel args (level + 1)
    (candidate_flag pow_half sim (robot s) (1, 0)%Z (visit_pos_rot s1))
    (candidate_state pow_half sim level (robot s) (1, 0)%Z s1)
  = (Ret (Some n2), s2) ->
  play_env pow_half sim (S fuel) args level true s
  = (Ret (Some (1 + n1 + n2)%Z), s2).
Proof.
  intros Hoff Hclear E1 E2. rewrite play_env_S. cbv zeta.
  rewrite Hoff, Hclear. cbn [negb orb entered visit_pos_rot].
  rewrite E1. cbn [continue_with]. rewrite E2. reflexivity.
Qed.

Lemma count_clear_visit pow_half sim args level flag r visit events o r'
  visit' :
  run pow_half sim args level flag r visit events o r' visit' ->
  count_clear sim (appended events)
  = (count_clear sim visit' - count_clear sim visit)%Z.
Proof.
  intros H. rewrite (run_visit _ _ _ _ _ _ _ _ _ _ _ H), count_clear_app.
  lia.
Qed.

Lemma count_clear_singleton (sim : Simulator) (r : Robot) :
  count_clear sim [point_of r] = if clear sim r then 1%Z else 0%Z.
Proof.
  unfold count_clear. cbn [filter]. rewrite robot_of_point_of.
  destruct (clear sim r); reflexivity.
Qed.

(** C1 (as amended).  With the recording guard of lines 301-304 off, a call
    of [play_env] returns 0 when the pose is not navigable, the robot is in
    contact or [flag_distinct] is false; otherwise it returns 1 plus the
    results of the two recursive calls, one per base action.  The number a
    call returns is 1 for its own pose, when that passed the three checks,
    plus the number of navigable, contact-free poses that were appended to
    [visit_pos_rot] during the call; for the call of line 548 that is the
    number of navigable, contact-free entries of the final visited list. *)
Theorem play_env_counts_clear_poses
  (pow_half : Q -> Q) (sim : Simulator) (args : Args) (fuel : nat)
  (level : Z) (flag : bool) (s : state) (start : Robot) :
  early_exit args = false ->
  (negb (clear sim (robot s)) || negb flag = true ->
   play_env pow_half sim (S fuel) args level flag s
   = (Ret (Some 0%Z), entered level flag s))
  /\ (clear sim (robot s) = true -> flag = true ->
      forall (n1 n2 : Z) (s1 s2 : state),
        play_env pow_half sim fuel args (level + 1)
          (candidate_flag pow_half sim (robot s) (0, 1)%Z (visit_pos_rot s))
          (candidate_state pow_half sim level (robot s) (0, 1)%Z
             (entered level flag s))
        = (Ret (Some n1), s1) ->
        play_env pow_half sim fuel args (level + 1)
          (candidate_flag pow_half sim (robot s) (1, 0)%Z (visit_pos_rot s1))
          (candidate_state pow_half sim level (robot s) (1, 0)%Z s1)
        = (Ret (Some n2), s2) ->
        play_env pow_half sim (S fuel) args level flag s
        = (Ret (Some (1 + n1 + n2)%Z), s2))
  /\ (forall n : Z,
        fst (play_env pow_half sim fuel args level flag s) = Ret (Some n) ->
        let visit' :=
          visit_pos_rot (snd (play_env pow_half sim fuel args level flag s)) in
        n = ((if clear sim (robot s) && flag then 1 else 0)
             + (count_clear sim visit' - count_clear sim (visit_pos_rot s)))%Z)
  /\ (forall n : Z,
        fst (play_env pow_half sim fuel args 0 true (initial_state start))
        = Ret (Some n) ->
        n = count_clear sim
              (visit_pos_rot
                 (snd (play_env pow_half sim fuel args 0 true
                         (initial_state start))))).
Proof.
  intros Hoff. repeat split.
  - intros Hstop. apply play_env_stops; assumption.
  - intros Hclear -> n1 n2 s1 s2 E1 E2.
    eapply play_env_sum; eassumption.
  - intros n Hn visit'. subst visit'.
    pose proof (play_env_new_events pow_half sim args fuel level flag s) as R.
    rewrite (run_count _ _ _ _ _ _ _ _ _ _ _ R n Hn).
    rewrite (count_clear_visit _ _ _ _ _ _ _ _ _ _ _ R). reflexivity.
  - intros n Hn.
    pose proof (play_env_new_events pow_half sim args fuel 0 true
                  (initial_state start)) as R.
    rewrite (run_count _ _ _ _ _ _ _ _ _ _ _ R n Hn).
    rewrite (count_clear_visit _ _ _ _ _ _ _ _ _ _ _ R).
    change (visit_pos_rot (initial_state start)) with [point_of start].
    change (robot (initial_state start)) with start.
    rewrite count_clear_singleton, andb_true_r.
    destruct (clear sim start); lia.
Qed.

(** C2.  During the run that line 548 starts, a point is appended to the
    visited list only when every point already recorded is more than 0.01
    away from it in position distance or in angular distance; hence after
    any number [k] of logged steps any two entries of the visited list are
    that far apart, and so are any two entries of the final list. *)
Theorem visited_list_pairwise_apart
  (pow_half : Q -> Q) (sim : Simulator) (fuel : nat) (args : Args)
  (start : Robot) :
  let s' := snd (play_env pow_half sim fuel args 0 true
                   (initial_state start)) in
  (forall (k : nat) (p : point),
      nth_error (log s') k = Some (Appended p) ->
      forall q : point,
        In q (point_of start :: appended (firstn k (log s'))) ->
        apart pow_half q p)
  /\ (forall k : nat,
        pairwise_apart pow_half
          (point_of start :: appended (firstn k (log s'))))
  /\ visit_pos_rot s' = point_of start :: appended (log s')
  /\ pairwise_apart pow_half (visit_pos_rot s').
Proof.
  intros s'.
  pose proof (play_env_new_events pow_half sim args fuel 0 true
                (initial_state start)) as R.
  fold s' in R.
  change (visit_pos_rot (initial_state start)) with [point_of start] in R.
  assert (Hlog : new_events (initial_state start) s' = log s')
    by reflexivity.
  rewrite Hlog in R.
  assert (Hk : forall k, scanned pow_half
                           ([point_of start] ++ appended (firstn k (log s')))).
  { intros k.
    apply (run_scanned_at_every_point _ _ _ _ _ _ _ _ _ _ _ R
             (scanned_singleton _ _) (firstn k (log s')) (skipn k (log s'))).
    symmetry. apply firstn_skipn. }
  assert (Hfinal : scanned pow_half (visit_pos_rot s'))
    by exact (run_scanned _ _ _ _ _ _ _ _ _ _ _ R (scanned_singleton _ _)).
  repeat split.
  - intros k p Hp q Hq.
    destruct (nth_error_split _ _ Hp) as (l1 & l2 & E & Hlen).
    specialize (Hk (S k)).
    assert (Hfirst : firstn (S k) (log s') = l1 ++ [Appended p]).
    { rewrite E. rewrite firstn_app, Hlen.
      replace (S k - k)%nat with 1%nat by lia.
      rewrite firstn_all2 by lia. reflexivity. }
    assert (Hbefore : firstn k (log s') = l1).
    { rewrite E. rewrite firstn_app, Hlen, Nat.sub_diag.
      rewrite firstn_all2 by lia. cbn [firstn]. apply app_nil_r. }
    rewrite Hbefore in Hq.
    rewrite Hfirst, appended_app in Hk. cbn [appended] in Hk.
    rewrite app_assoc in Hk.
    pose proof (Hk ([point_of start] ++ appended l1) [] p eq_refl) as Hscan.
    rewrite scan_visited_true in Hscan. apply Hscan. exact Hq.
  - intros k. apply scanned_pairwise_apart. exact (Hk k).
  - exact (run_visit _ _ _ _ _ _ _ _ _ _ _ R).
  - apply scanned_pairwise_apart. exact Hfinal.
Qed.

(** C3.  A call of [play_env] that passes the checks of lines 301-341 and
    returns has integrated exactly two base actions at its own level, in
    this order: [[0, 1]] as linear velocity (0,0,0) and angular velocity
    (0,50,0), and [[1, 0]] as linear velocity (10,0,0) and angular velocity
    (0,0,0); and it has made exactly two recursive calls, one at each of
    the two resulting poses. *)
Theorem play_env_tries_two_base_actions
  (pow_half : Q -> Q) (sim : Simulator) (fuel : nat) (args : Args)
  (level : Z) (s : state) :
  early_exit args = false ->
  clear sim (robot s) = true ->
  is_number (fst (play_env pow_half sim fuel args level true s)) = true ->
  let events :=
    new_events s (snd (play_env pow_half sim fuel args level true s)) in
  base_actions = [(0, 1); (1, 0)]%Z
  /\ integrations_at level events
     = [(mkVector3 0 0 0, mkVector3 0 50 0, robot s);
        (mkVector3 10 0 0, mkVector3 0 0 0, robot s)]
  /\ map fst (calls_at (level + 1) events)
     = [moved sim (robot s) (0, 1)%Z; moved sim (robot s) (1, 0)%Z]
  /\ List.length (calls_at (level + 1) events) = 2%nat.
Proof.
  intros Hoff Hclear Hnum events.
  pose proof (play_env_new_events pow_half sim args fuel level true s) as R.
  fold events in R.
  destruct (run_proceeds _ _ _ _ _ _ _ _ _ _ _ R Hnum Hoff Hclear eq_refl)
    as [HI HC].
  split; [reflexivity |]. split; [exact HI |]. split; [exact HC |].
  rewrite <- (length_map fst), HC. reflexivity.
Qed.

(** C4 (as amended).  A call of [play_env] that returns without a
    recursive call does so because the recording guard fired, because the
    pose is not navigable or the robot is in contact, or because the pose
    was flagged as a repeat.  The exploration terminates when the poses it
    can meet admit only boundedly many entries that pass the scan: if no
    scanned list of such poses is longer than [N], a nesting depth of
    [N + 2] suffices and the call returns a number. *)
Theorem play_env_stops_and_terminates
  (pow_half : Q -> Q) (sim : Simulator) (args : Args) (fuel : nat)
  (level : Z) (flag : bool) (s : state) :
  let res := play_env pow_half sim fuel args level flag s in
  ((exists v, fst res = Ret v) ->
   calls_at (level + 1) (new_events s (snd res)) = [] ->
   early_exit args = true \/ clear sim (robot s) = false \/ flag = false)
  /\ (forall (P : point -> Prop) (N : nat),
        early_exit args = false ->
        (forall v : list point,
            Forall P v -> scanned pow_half v -> (List.length v <= N)%nat) ->
        (forall (r : Robot) (a : Z * Z),
            P (point_of r) -> clear sim r = true -> In a base_actions ->
            P (point_of (moved sim r a))) ->
        P (point_of (robot s)) ->
        Forall P (visit_pos_rot s) ->
        scanned pow_half (visit_pos_rot s) ->
        (N + 2 <= fuel)%nat ->
        exists n : Z, fst res = Ret (Some n)).
Proof.
  intros res. split.
  - intros Hret Hcalls.
    eapply run_returns_without_recursing;
      [apply play_env_new_events | exact Hret | exact Hcalls].
  - intros P N Hoff Hbounded Hclosed Hr Hv Hs Hfuel.
    assert (Hnum : is_number (fst res) = true).
    { apply (play_env_enough_fuel pow_half sim args P N Hoff Hbounded Hclosed);
        try assumption.
      right. lia. }
    destruct (fst res) as [[n |] | e |]; try discriminate.
    exists n. reflexivity.
Qed.

(** C10.  Every pose that a call of [play_env], or a call nested in it,
    gives the robot has the height (index 1 of the base position) that the
    robot had when the call began, and so have the robot when the call ends
    and every point the call appends to the visited list.  Each integration
    at the level of the call starts from the pose at its entry: lines
    349-350 put the robot back there, whatever pose the previous trial and
    its recursion left. *)
Theorem play_env_keeps_height_and_entry_pose
  (pow_half : Q -> Q) (sim : Simulator) (fuel : nat) (args : Args)
  (level : Z) (flag : bool) (s : state) :
  let s' := snd (play_env pow_half sim fuel args level flag s) in
  let events := new_events s s' in
  Forall (fun r' => vy (base_pos r') = vy (base_pos (robot s)))
    (moves events)
  /\ vy (base_pos (robot s')) = vy (base_pos (robot s))
  /\ Forall (fun p => snd (fst (fst p)) = vy (base_pos (robot s)))
       (appended events)
  /\ Forall (fun i => snd i = robot s) (integrations_at level events)
  /\ (forall (before left_by_previous : Robot) (a : Z * Z)
        (visit : list point) (l : list event),
        candidate pow_half sim level (base_pos before) (base_rot before) a
          {| robot := left_by_previous; visit_pos_rot := visit; log := l |}
        = candidate pow_half sim level (base_pos before) (base_rot before) a
            {| robot := before; visit_pos_rot := visit; log := l |}
        /\ robot (snd (candidate pow_half sim level (base_pos before)
                         (base_rot before) a
                         {| robot := left_by_previous;
                            visit_pos_rot := visit; log := l |}))
           = moved sim before a
        /\ vy (base_pos (moved sim before a)) = vy (base_pos before)).
Proof.
  intros s' events.
  pose proof (play_env_new_events pow_half sim args fuel level flag s) as R.
  fold s' in R. fold events in R.
  destruct (run_height _ _ _ _ _ _ _ _ _ _ _ R) as (Hfinal & Hmoves & Happ).
  split; [exact Hmoves |]. split; [exact Hfinal |].
  split.
  { eapply Forall_impl; [| exact Happ].
    intros [[[x y] z] rot] H. exact H. }
  split; [exact (run_integrates_from_entry _ _ _ _ _ _ _ _ _ _ _ R) |].
  intros before left_by_previous a visit l.
  rewrite !candidate_eq. repeat split.
Qed.

(** ** The [__main__] block *)

(** [play_env] itself raises nothing: adding [None] never happens, since
    the guard that returns [None] fires in the outermost call already. *)
Lemma run_never_raises pow_half sim args level flag r visit events o r' visit' :
  run pow_half sim args level flag r visit events o r' visit' ->
  forall e : exn, o <> Raise e.
Proof.
  intros H e.
  destruct (early_exit args) eqn:Hoff.
  - destruct H; try congruence; discriminate.
  - destruct (run_number_or_fuel _ _ _ _ _ _ _ _ _ _ _ H Hoff)
      as [-> | [n ->]]; discriminate.
Qed.

Lemma play_env_never_raises pow_half sim fuel args level flag s (e : exn) :
  fst (play_env pow_half sim fuel args level flag s) <> Raise e.
Proof.
  destruct (play_env_run pow_half sim args fuel level flag s)
    as (events & R & _).
  exact (run_never_raises _ _ _ _ _ _ _ _ _ _ _ R e).
Qed.

Lemma configure_raises_only_ValueError (w : World) (args : Args) (e : exn) :
  configure w args = inl e -> e = ValueError.
Proof.
  unfold configure.
  destruct (add_ik args); [| discriminate].
  destruct (negb (in_actions "ARM_ACTION" _)); [| discriminate].
  congruence.
Qed.

Lemma in_actions_overrides (w : World) (args : Args) :
  let config := get_config w (cfg args) (opts args) in
  let config1 :=
    if negb (same_task args) then render_camera_overrides args config
    else config in
  let config2 := if gfx args then gfx_overrides config1 else config1 in
  let config3 :=
    if never_end args then never_end_overrides config2 else config2 in
  in_actions "ARM_ACTION" config3 = in_actions "ARM_ACTION" config.
Proof.
  cbv zeta.
  destruct (same_task args), (gfx args), (never_end args); reflexivity.
Qed.

Lemma configure_without_arm_action (w : World) (args : Args) :
  add_ik args = true ->
  in_actions "ARM_ACTION" (get_config w (cfg args) (opts args)) = false ->
  configure w args = inl ValueError.
Proof.
  intros Hik Hno. unfold configure. rewrite Hik.
  pose proof (in_actions_overrides w args) as H. cbv zeta in H.
  rewrite H, Hno. reflexivity.
Qed.

(** A completed run has constructed the environment and then written the
    pickle and the figure, and nothing else. *)
Lemma main_completed (fuel : nat) (w : World) (args : Args) :
  fst (main fuel w args) = Completed ->
  exists (config : Config) (total_point : option Z)
         (visited_list : list point),
    snd (main fuel w args)
    = [EnvCreated config;
       Pickled pickle_path (difference w) total_point visited_list;
       FigureSaved figure_path (scatter_x visited_list)
         (scatter_y visited_list)].
Proof.
  unfold main.
  destruct (negb (has_pygame w) && negb (no_render args)); [discriminate |].
  destruct (configure w args) as [e | config]; [discriminate |].
  destruct (make_env w config) as [sim start].
  destruct (play_env _ _ _ _ _ _ _) as [[total_point | e |] s];
    try discriminate.
  intros _. exists config, total_point, (visit_pos_rot s). reflexivity.
Qed.

(** C5 (as amended).  The pickle is not optional: whatever the options,
    the platform and the nesting depth allowed, a run that completes has
    written the pickle of the run time, the number of points and the
    visited list. *)
Theorem main_always_pickles (fuel : nat) (w : World) (args : Args) :
  fst (main fuel w args) = Completed ->
  In pickle_path (written_paths (snd (main fuel w args)))
  /\ exists (total_point : option Z) (visited_list : list point),
       In (Pickled pickle_path (difference w) total_point visited_list)
         (snd (main fuel w args)).
Proof.
  intros H. destruct (main_completed fuel w args H)
    as (config & total_point & visited_list & E).
  rewrite E. split.
  - cbn [written_paths In]. auto.
  - exists total_point, visited_list. cbn [In]. auto.
Qed.

(** C7 (as amended).  With PyGame missing, the run raises [ImportError] at
    start-up, before anything else happens, exactly when [--no-render] is
    not given; with [--no-render] the check is skipped and no
    [ImportError] is raised. *)
Theorem main_import_error_unless_no_render
  (fuel : nat) (w : World) (args : Args) :
  has_pygame w = false ->
  (no_render args = false -> main fuel w args = (Raised ImportError, []))
  /\ (no_render args = true ->
      fst (main fuel w args) <> Raised ImportError).
Proof.
  intros Hpg. unfold main. rewrite Hpg. split; intros Hnr; rewrite Hnr.
  - reflexivity.
  - cbn [negb andb].
    destruct (configure w args) as [e | config] eqn:Hc.
    + apply configure_raises_only_ValueError in Hc. subst e.
      cbn [fst]. discriminate.
    + destruct (make_env w config) as [sim start].
      pose proof (play_env_never_raises (libm_pow_half w) sim fuel args 0
                    true (initial_state start) ImportError) as Hne.
      destruct (play_env _ _ _ _ _ _ _) as [[total_point | e |] s];
        cbn [fst] in *; congruence.
Qed.

(** C8.  When the start-up check lets the run reach the configuration,
    [--add-ik] is given and the loaded configuration has no [ARM_ACTION]
    among [TASK.ACTIONS], the run raises [ValueError] and the environment
    is never constructed. *)
Theorem main_add_ik_without_arm_action
  (fuel : nat) (w : World) (args : Args) :
  has_pygame w || no_render args = true ->
  add_ik args = true ->
  in_actions "ARM_ACTION" (get_config w (cfg args) (opts args)) = false ->
  main fuel w args = (Raised ValueError, [])
  /\ env_created (snd (main fuel w args)) = false.
Proof.
  intros Hstart Hik Hno.
  assert (E : main fuel w args = (Raised ValueError, [])).
  { unfold main.
    assert (Hguard : negb (has_pygame w) && negb (no_render args) = false).
    { destruct (has_pygame w), (no_render args); try reflexivity;
        discriminate. }
    rewrite Hguard, (configure_without_arm_action w args Hik Hno).
    reflexivity. }
  rewrite E. split; reflexivity.
Qed.

(** ** The sample platforms *)

Lemma Q_eqb_eq (a b : Q) : Sample.Q_eqb a b = true -> a = b.
Proof.
  destruct a as [na da], b as [nb db]. unfold Sample.Q_eqb. cbn [Qnum Qden].
  intros H. apply andb_true_iff in H. destruct H as [Hn Hd].
  apply Z.eqb_eq in Hn. apply Pos.eqb_eq in Hd. congruence.
Qed.

Lemma point_eqb_eq (p q : point) : Sample.point_eqb p q = true -> p = q.
Proof.
  destruct p as [[[p0 p1] p2] pr], q as [[[q0 q1] q2] qr].
  unfold Sample.point_eqb. intros H.
  do 3 (apply andb_true_iff in H; destruct H as [H ?]).
  repeat match goal with
         | E : Sample.Q_eqb _ _ = true |- _ => apply Q_eqb_eq in E
         end.
  congruence.
Qed.

Lemma scan_visited_finds (pow_half : Q -> Q) (visit : list point)
  (p : point) (pos : Vector3) (rot : Q) :
  In p visit -> within_threshold pow_half p pos rot = true ->
  scan_visited pow_half visit pos rot = false.
Proof.
  intros Hin Hp. induction visit as [| x rest IH]; [contradiction |].
  cbn [scan_visited]. destruct Hin as [-> | Hin].
  - rewrite Hp. reflexivity.
  - destruct (within_threshold pow_half x pos rot); auto.
Qed.

(** A scanned list of poses that are each within the thresholds of itself
    has no repetition. *)
Lemma scanned_NoDup (pow_half : Q -> Q) (l : list point) :
  (forall p, In p l ->
     within_threshold pow_half p (base_pos (robot_of p))
       (base_rot (robot_of p)) = true) ->
  scanned pow_half l -> NoDup l.
Proof.
  induction l as [| q l IH] using rev_ind; intros Hself Hs.
  - constructor.
  - apply NoDup_app.
    + apply IH.
      * intros p Hp. apply Hself. apply in_or_app. left. exact Hp.
      * exact (scanned_prefix _ _ _ Hs).
    + constructor; [intros [] | constructor].
    + intros a Ha [E | []]. subst a.
      pose proof (Hs l [] q eq_refl) as Hscan.
      rewrite (scan_visited_finds pow_half l q _ _ Ha) in Hscan;
        [discriminate |].
      apply Hself. apply in_or_app. right. left. reflexivity.
Qed.

Lemma room_points_closed_true : Sample.room_points_closed = true.
Proof. vm_compute. reflexivity. Qed.

Lemma room_points_self (p : point) :
  In p Sample.room_points ->
  within_threshold Sample.pow_half p (base_pos (robot_of p))
    (base_rot (robot_of p)) = true.
Proof.
  intros Hp. pose proof room_points_closed_true as H.
  unfold Sample.room_points_closed in H.
  rewrite forallb_forall in H. specialize (H p Hp).
  apply andb_true_iff in H. tauto.
Qed.

Lemma room_points_bounded (v : list point) :
  Forall (fun p => In p Sample.room_points) v ->
  scanned Sample.pow_half v -> (List.length v <= 64)%nat.
Proof.
  intros Hv Hs.
  change 64%nat with (List.length Sample.room_points).
  apply NoDup_incl_length.
  - apply (scanned_NoDup Sample.pow_half); [| exact Hs].
    intros p Hp. apply room_points_self.
    rewrite Forall_forall in Hv. auto.
  - intros p Hp. rewrite Forall_forall in Hv. auto.
Qed.

Lemma room_points_step (r : Robot) (a : Z * Z) :
  In (point_of r) Sample.room_points ->
  clear (Sample.room 1 1) r = true -> In a base_actions ->
  In (point_of (moved (Sample.room 1 1) r a)) Sample.room_points.
Proof.
  intros Hr Hc Ha. pose proof room_points_closed_true as H.
  unfold Sample.room_points_closed in H.
  rewrite forallb_forall in H. specialize (H _ Hr).
  apply andb_true_iff in H. destruct H as [_ H].
  rewrite robot_of_point_of, Hc in H. cbn [negb orb] in H.
  rewrite forallb_forall in H. specialize (H a Ha).
  apply existsb_exists in H. destruct H as (q & Hq & E).
  apply point_eqb_eq in E. rewrite E. exact Hq.
Qed.

(** *** The open plane: the exploration walks a ray and never returns *)

Lemma pow_half_zero (q : Q) : q == 0 -> Sample.pow_half q = 0 # 1000.
Proof.
  intros H. unfold Sample.pow_half.
  assert (Hn : Qnum q = 0%Z).
  { unfold Qeq in H. cbn [Qnum Qden] in H. lia. }
  rewrite Hn. reflexivity.
Qed.

Lemma pow_half_ge_1 (q : Q) : 1 <= q -> 1 <= Sample.pow_half q.
Proof.
  intros H. unfold Sample.pow_half.
  assert (Hn : (Z.pos (Qden q) <= Qnum q)%Z).
  { unfold Qle in H. cbn [Qnum Qden] in H. lia. }
  assert (Hdiv : (1000000 <= Qnum q * 1000000 / Z.pos (Qden q))%Z).
  { apply Z.div_le_lower_bound; lia. }
  assert (Hsqrt : (1000 <= Z.sqrt (Qnum q * 1000000 / Z.pos (Qden q)))%Z).
  { change 1000%Z with (Z.sqrt 1000000). apply Z.sqrt_le_mono. exact Hdiv. }
  unfold Qle. cbn [Qnum Qden]. lia.
Qed.

Lemma stride_ge_1 : 1 <= Sample.stride.
Proof. vm_compute. discriminate. Qed.

Lemma heading_0 : Sample.heading 0 = (1, 0).
Proof. vm_compute. reflexivity. Qed.

Lemma moved_rotation (x : Q) :
  Qred x = x ->
  moved Sample.open_plane (Sample.on_ray x) (0, 1)%Z = Sample.on_ray x.
Proof.
  intros Hx. unfold moved, Sample.on_ray, Sample.open_plane, Sample.integrate.
  cbn [integrate_transform ctrl_freq base_pos base_rot fst snd].
  rewrite heading_0.
  cbn [fst snd base_pos base_rot vx vy vz set_index1 linear_velocity_of
       angular_velocity_of].
  unfold set_index1. cbn [vx vy vz].
  assert (Ex : Qred (x + 1 / (25 / np_pi) * inject_Z (0 * 10) * 1) = x).
  { rewrite <- Hx at 2. apply Qred_complete.
    change (inject_Z (0 * 10)) with 0. ring. }
  assert (Ez : Qred (0 + 1 / (25 / np_pi) * inject_Z (0 * 10) * 0) = 0)
    by (vm_compute; reflexivity).
  assert (Er : Qred (py_mod (0 + 1 / (25 / np_pi) * inject_Z (1 * 50))
                       (2 * np_pi)) = 0)
    by (vm_compute; reflexivity).
  rewrite Ex, Ez, Er. reflexivity.
Qed.

Lemma moved_translation (x : Q) :
  moved Sample.open_plane (Sample.on_ray x) (1, 0)%Z
  = Sample.on_ray (Qred (x + Sample.stride)).
Proof.
  unfold moved, Sample.on_ray, Sample.open_plane, Sample.integrate.
  cbn [integrate_transform ctrl_freq base_pos base_rot fst snd].
  rewrite heading_0.
  cbn [fst snd base_pos base_rot vx vy vz set_index1 linear_velocity_of
       angular_velocity_of].
  unfold set_index1. cbn [vx vy vz].
  assert (Ex : Qred (x + 1 / (25 / np_pi) * inject_Z (1 * 10) * 1)
               = Qred (x + Sample.stride)).
  { apply Qred_complete. apply Qplus_comp; [reflexivity |].
    vm_compute. reflexivity. }
  assert (Ez : Qred (0 + 1 / (25 / np_pi) * inject_Z (1 * 10) * 0) = 0)
    by (vm_compute; reflexivity).
  assert (Er : Qred (py_mod (0 + 1 / (25 / np_pi) * inject_Z (0 * 50))
                       (2 * np_pi)) = 0)
    by (vm_compute; reflexivity).
  rewrite Ex, Ez, Er. reflexivity.
Qed.

Lemma within_threshold_same (x : Q) :
  within_threshold Sample.pow_half (point_of (Sample.on_ray x))
    (base_pos (Sample.on_ray x)) (base_rot (Sample.on_ray x)) = true.
Proof.
  unfold within_threshold, point_of, Sample.on_ray, diff_pos_of, vec2list.
  cbn [base_pos base_rot vx vy vz].
  rewrite pow_half_zero by ring.
  vm_compute. reflexivity.
Qed.

Lemma within_threshold_behind (x' x : Q) :
  x' <= x ->
  within_threshold Sample.pow_half (point_of (Sample.on_ray x'))
    (base_pos (Sample.on_ray (Qred (x + Sample.stride))))
    (base_rot (Sample.on_ray (Qred (x + Sample.stride)))) = false.
Proof.
  intros Hle.
  unfold within_threshold, point_of, Sample.on_ray, diff_pos_of, vec2list.
  cbn [base_pos base_rot vx vy vz].
  apply andb_false_iff. left.
  destruct (Qle_bool _ _) eqn:E; [| reflexivity].
  apply Qle_bool_iff in E.
  match type of E with
  | Sample.pow_half ?q <= _ => assert (Hq : 1 <= q)
  end.
  { pose proof (Qred_correct (x + Sample.stride)) as Hred.
    set (X := Qred (x + Sample.stride)) in *.
    pose proof stride_ge_1 as Hstride.
    assert (Hd : 1 <= X - x') by lra.
    assert (Hsq : (x' - X) ^ 2 == (X - x') * (X - x'))
      by (cbn [Qpower Qpower_positive pow_pos]; ring).
    assert (H0 : (0 - 0) ^ 2 == 0) by reflexivity.
    rewrite Hsq, H0. nra. }
  apply pow_half_ge_1 in Hq.
  unfold has_visited_threshold_pos in E. lra.
Qed.

Lemma scan_visited_ahead (x : Q) (visit : list point) :
  Sample.behind x visit ->
  scan_visited Sample.pow_half visit
    (base_pos (Sample.on_ray (Qred (x + Sample.stride))))
    (base_rot (Sample.on_ray (Qred (x + Sample.stride)))) = true.
Proof.
  induction visit as [| p rest IH]; intros Hb; [reflexivity |].
  cbn [scan_visited].
  destruct (Hb p (or_introl eq_refl)) as (x' & -> & Hle).
  rewrite (within_threshold_behind x' x Hle).
  apply IH. intros q Hq. apply Hb. right. exact Hq.
Qed.

Lemma open_plane_never_returns (fuel : nat) :
  forall (level : Z) (s : state) (x : Q),
    robot s = Sample.on_ray x -> Qred x = x ->
    Sample.behind x (visit_pos_rot s) ->
    In (point_of (Sample.on_ray x)) (visit_pos_rot s) ->
    fst (play_env Sample.pow_half Sample.open_plane fuel
           Sample.default_args level true s) = OutOfFuel.
Proof.
  induction fuel as [| fuel IH]; intros level s x Hr Hx Hb Hin;
    [reflexivity |].
  rewrite play_env_S. cbv zeta.
  change (early_exit Sample.default_args) with false.
  change (clear Sample.open_plane (robot s)) with true.
  cbn [negb orb]. cbv iota.
  rewrite Hr.
  (* the rotation is a full turn: the pose is found in the list *)
  assert (Hf1 : candidate_flag Sample.pow_half Sample.open_plane
                  (Sample.on_ray x)
                  (0, 1)%Z (visit_pos_rot (entered level true s)) = false).
  { unfold candidate_flag. rewrite (moved_rotation x Hx).
    apply (scan_visited_finds _ _ (point_of (Sample.on_ray x)));
      [exact Hin | apply within_threshold_same]. }
  rewrite Hf1.
  set (s1 := candidate_state Sample.pow_half Sample.open_plane level
               (Sample.on_ray x) (0, 1)%Z (entered level true s)).
  assert (Hv1 : visit_pos_rot s1 = visit_pos_rot s).
  { unfold s1, candidate_state, candidate_visit.
    cbn [visit_pos_rot entered]. cbn [entered visit_pos_rot] in Hf1.
    rewrite Hf1. reflexivity. }
  destruct fuel as [| fuel']; [reflexivity |].
  rewrite (play_env_stops Sample.pow_half Sample.open_plane
             Sample.default_args fuel' (level + 1) false s1 eq_refl)
    by apply orb_true_r.
  cbn [continue_with].
  (* the translation reaches a pose ahead of all the recorded ones *)
  set (s1' := entered (level + 1) false s1).
  assert (Hf2 : candidate_flag Sample.pow_half Sample.open_plane
                  (Sample.on_ray x)
                  (1, 0)%Z (visit_pos_rot s1') = true).
  { unfold candidate_flag. rewrite (moved_translation x).
    cbn [s1' entered visit_pos_rot]. rewrite Hv1.
    apply scan_visited_ahead. exact Hb. }
  rewrite Hf2.
  set (s2 := candidate_state Sample.pow_half Sample.open_plane level
               (Sample.on_ray x) (1, 0)%Z s1').
  assert (Hv2 : visit_pos_rot s2
                = visit_pos_rot s
                  ++ [point_of (Sample.on_ray (Qred (x + Sample.stride)))]).
  { unfold s2, candidate_state, candidate_visit.
    cbn [visit_pos_rot]. rewrite Hf2, (moved_translation x).
    cbn [s1' entered visit_pos_rot]. rewrite Hv1. reflexivity. }
  assert (Hout : fst (play_env Sample.pow_half Sample.open_plane (S fuel')
                        Sample.default_args (level + 1) true s2)
                 = OutOfFuel).
  { apply (IH (level + 1)%Z s2 (Qred (x + Sample.stride))).
    - unfold s2, candidate_state. cbn [robot]. apply moved_translation.
    - apply Qred_complete. apply Qred_correct.
    - intros p Hp. rewrite Hv2 in Hp. apply in_app_or in Hp.
      destruct Hp as [Hp | [<- | []]].
      + destruct (Hb p Hp) as (x' & -> & Hle). exists x'.
        split; [reflexivity |].
        pose proof (Qred_correct (x + Sample.stride)) as Hred.
        pose proof stride_ge_1 as Hstride. lra.
      + exists (Qred (x + Sample.stride)). split; [reflexivity | lra].
    - rewrite Hv2. apply in_or_app. right. left. reflexivity. }
  destruct (play_env Sample.pow_half Sample.open_plane (S fuel')
              Sample.default_args (level + 1) true s2) as [o2 s2'].
  cbn [fst] in Hout. subst o2. reflexivity.
Qed.

(** ** Runs on the sample platforms *)

(** The exploration of the room from its corner, as line 548 starts it. *)
Abbreviation room_run fuel :=
  (play_env Sample.pow_half (Sample.room 1 1) fuel Sample.default_args 0 true
     (initial_state Sample.origin)).

Lemma new_events_initial_state (start : Robot) (s' : state) :
  new_events (initial_state start) s' = log s'.
Proof. reflexivity. Qed.

Lemma room_run_40 : fst (room_run 40) = Ret (Some 16%Z).
Proof. vm_compute. reflexivity. Qed.

Lemma in_room_points (p : point) :
  existsb (Sample.point_eqb p) Sample.room_points = true ->
  In p Sample.room_points.
Proof.
  intros H. apply existsb_exists in H. destruct H as (q & Hq & E).
  apply point_eqb_eq in E. rewrite E. exact Hq.
Qed.

(** C1, the claim as stated fails: with [--save-actions] and a negative
    [--save-actions-count] the call returns [None], be the pose navigable
    or not. *)
Lemma play_env_returns_None_when_guard_fires :
  clear (Sample.room 1 1) Sample.outside = false
  /\ fst (play_env Sample.pow_half (Sample.room 1 1) 5
            Sample.negative_count_args 0 true (initial_state Sample.outside))
     = Ret None
  /\ clear (Sample.room 1 1) Sample.origin = true
  /\ fst (play_env Sample.pow_half (Sample.room 1 1) 5
            Sample.negative_count_args 0 true (initial_state Sample.origin))
     = Ret None.
Proof. repeat split; vm_compute; reflexivity. Qed.

(** C1 on the room: the exploration returns 16, the number of navigable
    entries among the 24 of the final visited list. *)
Lemma play_env_counts_clear_poses_witness :
  fst (room_run 40) = Ret (Some 16%Z)
  /\ List.length (visit_pos_rot (snd (room_run 40))) = 24%nat
  /\ count_clear (Sample.room 1 1) (visit_pos_rot (snd (room_run 40)))
     = 16%Z.
Proof.
  split; [exact room_run_40 |].
  split; [vm_compute; reflexivity |].
  symmetry.
  exact (proj2 (proj2 (proj2
           (play_env_counts_clear_poses Sample.pow_half (Sample.room 1 1)
              Sample.default_args 40 0 true (initial_state Sample.origin)
              Sample.origin eq_refl)))
           16%Z room_run_40).
Defined.

(** C2 on the room. *)
Lemma visited_list_pairwise_apart_witness :
  List.length (visit_pos_rot (snd (room_run 40))) = 24%nat
  /\ pairwise_apart Sample.pow_half (visit_pos_rot (snd (room_run 40))).
Proof.
  split; [vm_compute; reflexivity |].
  exact (proj2 (proj2 (proj2
           (visited_list_pairwise_apart Sample.pow_half (Sample.room 1 1)
              40 Sample.default_args Sample.origin)))).
Defined.

(** C3 on the room. *)
Lemma play_env_tries_two_base_actions_witness :
  integrations_at 0 (log (snd (room_run 40)))
  = [(mkVector3 0 0 0, mkVector3 0 50 0, Sample.origin);
     (mkVector3 10 0 0, mkVector3 0 0 0, Sample.origin)]
  /\ List.length (calls_at 1 (log (snd (room_run 40)))) = 2%nat.
Proof.
  assert (Hnum : is_number (fst (room_run 40)) = true)
    by (rewrite room_run_40; reflexivity).
  pose proof (play_env_tries_two_base_actions Sample.pow_half
                (Sample.room 1 1) 40 Sample.default_args 0
                (initial_state Sample.origin) eq_refl eq_refl Hnum) as H.
  cbv zeta in H. rewrite new_events_initial_state in H.
  split; [exact (proj1 (proj2 H)) | exact (proj2 (proj2 (proj2 H)))].
Defined.

(** C4, the claim as stated fails.  In the room, a call at a navigable,
    contact-free pose with [flag_distinct] false returns 0 without a
    recursive call, and the run of line 548 makes such calls.  On the open
    plane the run of line 548 exceeds every nesting depth. *)
Lemma play_env_stops_on_repeats_and_may_not_terminate :
  clear (Sample.room 1 1) Sample.origin = true
  /\ fst (play_env Sample.pow_half (Sample.room 1 1) 3 Sample.default_args 0
            false (initial_state Sample.origin)) = Ret (Some 0%Z)
  /\ calls_at 1
       (log (snd (play_env Sample.pow_half (Sample.room 1 1) 3
                    Sample.default_args 0 false
                    (initial_state Sample.origin)))) = []
  /\ List.length
       (filter (fun e => match e with
                         | Enter _ r false => clear (Sample.room 1 1) r
                         | _ => false
                         end) (log (snd (room_run 40)))) = 9%nat
  /\ (forall fuel : nat,
        fst (play_env Sample.pow_half Sample.open_plane fuel
               Sample.default_args 0 true (initial_state Sample.origin))
        = OutOfFuel).
Proof.
  split; [vm_compute; reflexivity |].
  split; [vm_compute; reflexivity |].
  split; [vm_compute; reflexivity |].
  split; [vm_compute; reflexivity |].
  intros fuel.
  apply (open_plane_never_returns fuel 0 (initial_state Sample.origin) 0).
  - reflexivity.
  - reflexivity.
  - intros p [<- | []]. exists 0. split; [reflexivity | lra].
  - left. reflexivity.
Qed.

(** C4 on the room: no scanned list of its poses has more than 64
    entries, so a nesting depth of 66 suffices. *)
Lemma play_env_stops_and_terminates_witness :
  exists n : Z, fst (room_run 66) = Ret (Some n).
Proof.
  apply (proj2 (play_env_stops_and_terminates Sample.pow_half
                  (Sample.room 1 1) Sample.default_args 66 0 true
                  (initial_state Sample.origin))
           (fun p => In p Sample.room_points) 64%nat).
  - reflexivity.
  - exact room_points_bounded.
  - exact room_points_step.
  - apply in_room_points. vm_compute. reflexivity.
  - constructor; [| constructor].
    apply in_room_points. vm_compute. reflexivity.
  - apply scanned_singleton.
  - apply Nat.le_refl.
Defined.

(** C5, the claim as stated fails: no run completes without the pickle. *)
Lemma main_never_completes_without_pickle :
  (~ exists (fuel : nat) (w : World) (args : Args),
       fst (main fuel w args) = Completed
       /\ ~ In pickle_path (written_paths (snd (main fuel w args))))
  /\ fst (main 40 Sample.world Sample.default_args) = Completed
  /\ written_paths (snd (main 40 Sample.world Sample.default_args))
     = [pickle_path; figure_path].
Proof.
  split.
  - intros (fuel & w & args & Hdone & Hno). apply Hno.
    destruct (main_completed fuel w args Hdone) as (c & t & v & E).
    rewrite E. cbn [written_paths In]. auto.
  - split; vm_compute; reflexivity.
Qed.

(** C5 on the sample machine. *)
Lemma main_always_pickles_witness :
  In pickle_path
    (written_paths (snd (main 40 Sample.world Sample.default_args)))
  /\ exists (total_point : option Z) (visited_list : list point),
       In (Pickled pickle_path (difference Sample.world) total_point
             visited_list)
         (snd (main 40 Sample.world Sample.default_args)).
Proof.
  apply (main_always_pickles 40 Sample.world Sample.default_args).
  vm_compute. reflexivity.
Defined.

(** C6, the code at [--no-render --save-obs --save-actions]: the run
    completes and has written the pickle and the figure; no video under
    [SAVE_VIDEO_DIR] and no action file under [SAVE_ACTIONS_DIR] is
    written, by this run or by any other. *)
Theorem main_writes_no_video_and_no_actions :
  save_obs Sample.recording_args = true
  /\ save_actions Sample.recording_args = true
  /\ fst (main 40 Sample.world Sample.recording_args) = Completed
  /\ written_paths (snd (main 40 Sample.world Sample.recording_args))
     = [pickle_path; figure_path]
  /\ (forall (fuel : nat) (w : World) (args : Args),
        fst (main fuel w args) = Completed ->
        written_paths (snd (main fuel w args))
        = [pickle_path; figure_path]).
Proof.
  split; [reflexivity |]. split; [reflexivity |].
  split; [vm_compute; reflexivity |].
  split; [vm_compute; reflexivity |].
  intros fuel w args Hdone.
  destruct (main_completed fuel w args Hdone) as (c & t & v & E).
  rewrite E. reflexivity.
Qed.

(** C7, the claim as stated fails: without PyGame and with [--no-render]
    the run completes. *)
Lemma main_without_pygame_completes_under_no_render :
  has_pygame Sample.world = false
  /\ no_render Sample.default_args = true
  /\ fst (main 40 Sample.world Sample.default_args) = Completed.
Proof. repeat split; vm_compute; reflexivity. Qed.

(** C7 on the sample machine. *)
Lemma main_import_error_unless_no_render_witness :
  main 40 Sample.world Sample.render_args = (Raised ImportError, [])
  /\ fst (main 40 Sample.world Sample.default_args) <> Raised ImportError.
Proof.
  split.
  - exact (proj1 (main_import_error_unless_no_render 40 Sample.world
                    Sample.render_args eq_refl) eq_refl).
  - exact (proj2 (main_import_error_unless_no_render 40 Sample.world
                    Sample.default_args eq_refl) eq_refl).
Defined.

(** C8 on the sample machine, whose task has no arm action. *)
Lemma main_add_ik_without_arm_action_witness :
  main 40 Sample.world Sample.ik_args = (Raised ValueError, [])
  /\ env_created (snd (main 40 Sample.world Sample.ik_args)) = false.
Proof.
  exact (main_add_ik_without_arm_action 40 Sample.world Sample.ik_args
           eq_refl eq_refl eq_refl).
Defined.

(** ** More on [distance_angle] *)





(** ** More on the exploration *)

Lemma scan_visited_false (pow_half : Q -> Q) (visit : list point)
  (pos : Vector3) (rot : Q) :
  scan_visited pow_half visit pos rot = false
  <-> exists p : point,
        In p visit /\ within_threshold pow_half p pos rot = true.
Proof.
  induction visit as [| x rest IH]; cbn [scan_visited In].
  - split; [discriminate | intros (p & [] & _)].
  - destruct (within_threshold pow_half x pos rot) eqn:E.
    + split; [intros _; exists x; auto | reflexivity].
    + rewrite IH. split.
      * intros (p & Hp & Hw). exists p. auto.
      * intros (p & [<- | Hp] & Hw); [congruence | exists p; auto].
Qed.

Lemma covered_app (pow_half : Q -> Q) (visit more : list point)
  (q : Robot) :
  covered pow_half visit q -> covered pow_half (visit ++ more) q.
Proof.
  intros [H | (p & Hp & Hw)].
  - left. apply in_or_app. left. exact H.
  - right. exists p. split; [apply in_or_app; left; exact Hp | exact Hw].
Qed.

Lemma covered_candidate_visit (pow_half : Q -> Q) (sim : Simulator)
  (r : Robot) (a : Z * Z) (visit : list point) :
  covered pow_half (candidate_visit pow_half sim r a visit) (moved sim r a).
Proof.
  unfold candidate_visit.
  destruct (candidate_flag pow_half sim r a visit) eqn:E.
  - left. apply in_or_app. right. left. reflexivity.
  - right. apply scan_visited_false. exact E.
Qed.

Lemma run_flag_false pow_half sim args level r visit events o r' visit' :
  run pow_half sim args level false r visit events o r' visit' ->
  appended events = [] /\ r' = r /\ visit' = visit.
Proof.
  intros H. inversion H; subst; repeat split; reflexivity.
Qed.

Lemma run_not_clear pow_half sim args level flag r visit events o r' visit' :
  run pow_half sim args level flag r visit events o r' visit' ->
  clear sim r = false ->
  appended events = [] /\ r' = r /\ visit' = visit.
Proof.
  intros H Hc. inversion H; subst; try congruence;
    repeat split; reflexivity.
Qed.

Lemma run_guard_on pow_half sim args level flag r visit events o r' visit' :
  run pow_half sim args level flag r visit events o r' visit' ->
  early_exit args = true ->
  appended events = [] /\ r' = r /\ visit' = visit
  /\ (o = OutOfFuel \/ o = Ret None).
Proof.
  intros H Hc. inversion H; subst; try congruence;
    repeat split; auto.
Qed.

Lemma run_number_guard_off pow_half sim args level flag r visit events o r'
  visit' :
  run pow_half sim args level flag r visit events o r' visit' ->
  is_number o = true -> early_exit args = false.
Proof.
  intros H Ho. destruct H; try assumption; discriminate.
Qed.


(** X5.  The visited list is append-only: a call of [play_env] leaves the
    entries it was given in place and in order and adds the points that
    its log records; a call that does not pass the checks (guard, not
    navigable, contact, repeat) leaves the list and the robot as they
    were. *)
Theorem play_env_only_appends
  (pow_half : Q -> Q) (sim : Simulator) (fuel : nat) (args : Args)
  (level : Z) (flag : bool) (s : state) :
  let s' := snd (play_env pow_half sim fuel args level flag s) in
  visit_pos_rot s' = visit_pos_rot s ++ appended (new_events s s')
  /\ firstn (List.length (visit_pos_rot s)) (visit_pos_rot s')
     = visit_pos_rot s
  /\ (early_exit args || negb (clear sim (robot s)) || negb flag = true ->
      visit_pos_rot s' = visit_pos_rot s /\ robot s' = robot s).
Proof.
  intros s'.
  pose proof (play_env_new_events pow_half sim args fuel level flag s) as R.
  fold s' in R.
  pose proof (run_visit _ _ _ _ _ _ _ _ _ _ _ R) as Hv.
  split; [exact Hv |]. split.
  - rewrite Hv, firstn_app, Nat.sub_diag, firstn_all. cbn [firstn].
    apply app_nil_r.
  - intros Hstop.
    apply orb_true_iff in Hstop. destruct Hstop as [Hstop | Hflag].
    + apply orb_true_iff in Hstop. destruct Hstop as [Hon | Hnc].
      * destruct (run_guard_on _ _ _ _ _ _ _ _ _ _ _ R Hon)
          as (_ & Hr & Hv' & _). auto.
      * apply negb_true_iff in Hnc.
        destruct (run_not_clear _ _ _ _ _ _ _ _ _ _ _ R Hnc)
          as (_ & Hr & Hv'). auto.
    + apply negb_true_iff in Hflag. subst flag.
      destruct (run_flag_false _ _ _ _ _ _ _ _ _ _ R) as (_ & Hr & Hv').
      auto.
Qed.

Lemma count_calls_app (a b : list event) :
  count_calls (a ++ b) = (count_calls a + count_calls b)%nat.
Proof. unfold count_calls. rewrite filter_app, length_app. reflexivity. Qed.

Lemma count_integrations_app (a b : list event) :
  count_integrations (a ++ b)
  = (count_integrations a + count_integrations b)%nat.
Proof.
  unfold count_integrations. rewrite filter_app, length_app. reflexivity.
Qed.

Lemma count_candidate_events pow_half sim level r a visit :
  count_calls (candidate_events pow_half sim level r a visit) = 0%nat
  /\ count_integrations (candidate_events pow_half sim level r a visit)
     = 1%nat.
Proof.
  unfold candidate_events, count_calls, count_integrations.
  destruct (candidate_flag pow_half sim r a visit); split; reflexivity.
Qed.

Lemma run_cost pow_half sim args level flag r visit events o r' visit' :
  run pow_half sim args level flag r visit events o r' visit' ->
  forall n : Z, o = Ret (Some n) ->
    (0 <= n)%Z
    /\ Z.of_nat (count_calls events) = (2 * n + 1)%Z
    /\ Z.of_nat (count_integrations events) = (2 * n)%Z.
Proof.
  intros H. run_induction H; intros n Hn; try discriminate.
  - assert (n = 0%Z) by congruence. subst n.
    repeat split; reflexivity || lia.
  - destruct o1 as [[?|]|?|]; discriminate.
  - destruct o2 as [[?|]|?|]; discriminate.
  - assert (n = (1 + n1 + n2)%Z) by congruence. subst n.
    destruct (IH1 n1 eq_refl) as (P1 & C1 & I1).
    destruct (IH2 n2 eq_refl) as (P2 & C2 & I2).
    change (Enter level r true :: ?l) with ([Enter level r true] ++ l).
    rewrite !count_calls_app, !count_integrations_app.
    destruct (count_candidate_events pow_half sim level r (0, 1)%Z visit)
      as [Ec1 Ei1].
    destruct (count_candidate_events pow_half sim level r (1, 0)%Z visit1)
      as [Ec2 Ei2].
    rewrite Ec1, Ei1, Ec2, Ei2.
    change (count_calls [Enter level r true]) with 1%nat.
    change (count_integrations [Enter level r true]) with 0%nat.
    lia.
Qed.

(** X6.  The cost of an exploration: a call of [play_env] that returns the
    number [n] has made [2 * n + 1] calls of [play_env], itself included,
    and [2 * n] calls of [integrate_transform]; [n] is not negative. *)
Theorem play_env_cost
  (pow_half : Q -> Q) (sim : Simulator) (fuel : nat) (args : Args)
  (level : Z) (flag : bool) (s : state) (n : Z) :
  fst (play_env pow_half sim fuel args level flag s) = Ret (Some n) ->
  let events :=
    new_events s (snd (play_env pow_half sim fuel args level flag s)) in
  (0 <= n)%Z
  /\ Z.of_nat (count_calls events) = (2 * n + 1)%Z
  /\ Z.of_nat (count_integrations events) = (2 * n)%Z.
Proof.
  intros Hn events.
  exact (run_cost _ _ _ _ _ _ _ _ _ _ _
           (play_env_new_events pow_half sim args fuel level flag s) n Hn).
Qed.

(** The poses whose two successors a run has tried. *)
Lemma run_exhaustive pow_half sim args level flag r visit events o r' visit' :
  run pow_half sim args level flag r visit events o r' visit' ->
  is_number o = true ->
  forall p : point,
    In p ((if flag then [point_of r] else []) ++ appended events) ->
    clear sim (robot_of p) = true ->
    forall a : Z * Z, In a base_actions ->
      covered pow_half visit' (moved sim (robot_of p) a).
Proof.
  intros H. run_induction H; intros Ho p Hp Hc a Ha; try discriminate.
  - (* the call stopped: its pose is not clear or it is a repeat *)
    cbn [appended] in Hp. rewrite app_nil_r in Hp.
    destruct flag; [| contradiction].
    destruct Hp as [<- | []]. rewrite robot_of_point_of in Hc.
    rewrite Hc in Hstop. discriminate.
  - rewrite abort_not_number in Ho. discriminate.
  - rewrite abort_not_number in Ho. discriminate.
  - pose proof (run_visit _ _ _ _ _ _ _ _ _ _ _ R1) as V1.
    pose proof (run_visit _ _ _ _ _ _ _ _ _ _ _ R2) as V2.
    change (Enter level r true :: ?l) with ([Enter level r true] ++ l) in Hp.
    rewrite !appended_app in Hp. cbn [appended app] in Hp.
    assert (Hq1 : covered pow_half visit2 (moved sim r (0, 1)%Z)).
    { rewrite V2. apply covered_app.
      unfold candidate_visit at 1.
      destruct (candidate_flag pow_half sim r (1, 0)%Z visit1);
        [apply covered_app |];
        rewrite V1; apply covered_app; apply covered_candidate_visit. }
    assert (Hq2 : covered pow_half visit2 (moved sim r (1, 0)%Z)).
    { rewrite V2. apply covered_app. apply covered_candidate_visit. }
    assert (Hsub1 : forall x, In x ((if candidate_flag pow_half sim r
                                           (0, 1)%Z visit
                                     then [point_of (moved sim r (0, 1)%Z)]
                                     else []) ++ appended ev1) ->
              clear sim (robot_of x) = true ->
              covered pow_half visit2 (moved sim (robot_of x) a)).
    { intros x Hx Hcx. rewrite V2. apply covered_app.
      unfold candidate_visit at 1.
      destruct (candidate_flag pow_half sim r (1, 0)%Z visit1);
        [apply covered_app |]; apply (IH1 eq_refl x Hx Hcx a Ha). }
    destruct Hp as [<- | Hp].
    { rewrite robot_of_point_of.
      destruct Ha as [<- | [<- | []]]; assumption. }
    apply in_app_or in Hp. destruct Hp as [Hp | Hp].
    { apply Hsub1; [| exact Hc].
      unfold candidate_events in Hp. cbn [appended] in Hp.
      apply in_or_app. left.
      destruct (candidate_flag pow_half sim r (0, 1)%Z visit); exact Hp. }
    apply in_app_or in Hp. destruct Hp as [Hp | Hp].
    { apply Hsub1; [| exact Hc]. apply in_or_app. right. exact Hp. }
    apply (IH2 eq_refl p); [| exact Hc | exact Ha].
    apply in_app_or in Hp. apply in_or_app.
    destruct Hp as [Hp | Hp]; [left | right; exact Hp].
    unfold candidate_events in Hp. cbn [appended] in Hp.
    destruct (candidate_flag pow_half sim r (1, 0)%Z visit1); exact Hp.
Qed.

(** X7.  The exploration is exhaustive: when the call of line 548 returns
    a number, every entry of the final visited list that is navigable and
    free of contact has had both base actions tried, and each resulting
    pose is in the list or within both thresholds of an entry of the
    list. *)
Theorem play_env_exhaustive
  (pow_half : Q -> Q) (sim : Simulator) (fuel : nat) (args : Args)
  (start : Robot) (n : Z) :
  fst (play_env pow_half sim fuel args 0 true (initial_state start))
  = Ret (Some n) ->
  let final :=
    visit_pos_rot
      (snd (play_env pow_half sim fuel args 0 true (initial_state start))) in
  forall (p : point) (a : Z * Z),
    In p final -> clear sim (robot_of p) = true -> In a base_actions ->
    covered pow_half final (moved sim (robot_of p) a).
Proof.
  intros Hn final p a Hp Hc Ha.
  pose proof (play_env_new_events pow_half sim args fuel 0 true
                (initial_state start)) as R.
  rewrite Hn in R.
  apply (run_exhaustive _ _ _ _ _ _ _ _ _ _ _ R eq_refl p); try assumption.
  unfold final in Hp.
  rewrite (run_visit _ _ _ _ _ _ _ _ _ _ _ R) in Hp. exact Hp.
Qed.

Lemma candidate_connected pow_half sim args level r a visit ev o r' visit' :
  In a base_actions -> clear sim r = true ->
  run pow_half sim args (level + 1) (candidate_flag pow_half sim r a visit)
    (moved sim r a) (candidate_visit pow_half sim r a visit)
    ev o r' visit' ->
  (forall p : point, In p (appended ev) ->
     exists (r0 : Robot) (a0 : Z * Z),
       In a0 base_actions /\ clear sim r0 = true
       /\ p = point_of (moved sim r0 a0)
       /\ (r0 = moved sim r a \/ In (point_of r0) (appended ev))) ->
  forall p : point,
    In p (appended (candidate_events pow_half sim level r a visit))
    \/ In p (appended ev) ->
    exists (r0 : Robot) (a0 : Z * Z),
      In a0 base_actions /\ clear sim r0 = true
      /\ p = point_of (moved sim r0 a0)
      /\ (r0 = r
          \/ In (point_of r0)
               (appended (candidate_events pow_half sim level r a visit))
          \/ In (point_of r0) (appended ev)).
Proof.
  intros Ha Hclear R IH p [Hp | Hp].
  - unfold candidate_events in Hp. cbn [appended] in Hp.
    destruct (candidate_flag pow_half sim r a visit); [| contradiction].
    destruct Hp as [<- | []]. exists r, a. auto.
  - destruct (candidate_flag pow_half sim r a visit) eqn:F.
    + destruct (IH p Hp) as (r0 & a0 & Ha0 & Hc & E & Hr0).
      exists r0, a0. repeat split; try assumption. right.
      destruct Hr0 as [-> | Hr0]; [left | right; exact Hr0].
      unfold candidate_events. rewrite F. cbn [appended In]. auto.
    + destruct (run_flag_false _ _ _ _ _ _ _ _ _ _ R) as (E & _).
      rewrite E in Hp. contradiction.
Qed.

Lemma run_connected pow_half sim args level flag r visit events o r' visit' :
  run pow_half sim args level flag r visit events o r' visit' ->
  forall p : point, In p (appended events) ->
    exists (r0 : Robot) (a : Z * Z),
      In a base_actions /\ clear sim r0 = true
      /\ p = point_of (moved sim r0 a)
      /\ (r0 = r \/ In (point_of r0) (appended events)).
Proof.
  assert (A01 : In (0, 1)%Z base_actions) by (cbn; auto).
  assert (A10 : In (1, 0)%Z base_actions) by (cbn; auto).
  intros H. run_induction H; intros p Hp; try contradiction.
  - change (Enter level r true :: ?l) with ([Enter level r true] ++ l)
      in Hp |- *.
    rewrite !appended_app in Hp. cbn [appended app] in Hp.
    apply in_app_or in Hp.
    destruct (candidate_connected _ _ _ _ _ _ _ _ _ _ _ A01 Hclear R1 IH1
                p Hp) as (r0 & a & Ha & Hc & E & Hr0).
    exists r0, a. repeat split; try assumption.
    rewrite !appended_app. cbn [appended app]. rewrite in_app_iff.
    exact Hr0.
  - change (Enter level r true :: ?l) with ([Enter level r true] ++ l)
      in Hp |- *.
    rewrite !appended_app in Hp. cbn [appended app] in Hp.
    rewrite !in_app_iff in Hp.
    assert (Hp' : (In p (appended (candidate_events pow_half sim level r
                                     (0, 1)%Z visit))
                   \/ In p (appended ev1))
                  \/ (In p (appended (candidate_events pow_half sim level r
                                        (1, 0)%Z visit1))
                      \/ In p (appended ev2))) by tauto.
    destruct Hp' as [Hp' | Hp'].
    + destruct (candidate_connected _ _ _ _ _ _ _ _ _ _ _ A01 Hclear R1 IH1
                  p Hp') as (r0 & a & Ha & Hc & E & Hr0).
      exists r0, a. repeat split; try assumption.
      rewrite !appended_app. cbn [appended app]. rewrite !in_app_iff. tauto.
    + destruct (candidate_connected _ _ _ _ _ _ _ _ _ _ _ A10 Hclear R2 IH2
                  p Hp') as (r0 & a & Ha & Hc & E & Hr0).
      exists r0, a. repeat split; try assumption.
      rewrite !appended_app. cbn [appended app]. rewrite !in_app_iff. tauto.
  - change (Enter level r true :: ?l) with ([Enter level r true] ++ l)
      in Hp |- *.
    rewrite !appended_app in Hp. cbn [appended app] in Hp.
    rewrite !in_app_iff in Hp.
    assert (Hp' : (In p (appended (candidate_events pow_half sim level r
                                     (0, 1)%Z visit))
                   \/ In p (appended ev1))
                  \/ (In p (appended (candidate_events pow_half sim level r
                                        (1, 0)%Z visit1))
                      \/ In p (appended ev2))) by tauto.
    destruct Hp' as [Hp' | Hp'].
    + destruct (candidate_connected _ _ _ _ _ _ _ _ _ _ _ A01 Hclear R1 IH1
                  p Hp') as (r0 & a & Ha & Hc & E & Hr0).
      exists r0, a. repeat split; try assumption.
      rewrite !appended_app. cbn [appended app]. rewrite !in_app_iff. tauto.
    + destruct (candidate_connected _ _ _ _ _ _ _ _ _ _ _ A10 Hclear R2 IH2
                  p Hp') as (r0 & a & Ha & Hc & E & Hr0).
      exists r0, a. repeat split; try assumption.
      rewrite !appended_app. cbn [appended app]. rewrite !in_app_iff. tauto.
Qed.

(** X8.  The visited poses are connected: every point that a call of
    [play_env] appends is the result of one base action
    ([integrate_transform], height restored, lines 349-371) applied at a
    navigable, contact-free pose, and that pose is the call's entry pose
    or itself a point appended during the call. *)
Theorem play_env_appends_reachable_poses
  (pow_half : Q -> Q) (sim : Simulator) (fuel : nat) (args : Args)
  (level : Z) (flag : bool) (s : state) (p : point) :
  let s' := snd (play_env pow_half sim fuel args level flag s) in
  In p (appended (new_events s s')) ->
  exists (r0 : Robot) (a : Z * Z),
    In a base_actions /\ clear sim r0 = true
    /\ p = point_of (moved sim r0 a)
    /\ (r0 = robot s \/ In (point_of r0) (appended (new_events s s'))).
Proof.
  intros s' Hp.
  exact (run_connected _ _ _ _ _ _ _ _ _ _ _
           (play_env_new_events pow_half sim args fuel level flag s) p Hp).
Qed.

(** ** The [__main__] block, continued *)

Lemma set_arm_controller_names (key v : string)
  (actions : list (string * ActionConfig)) :
  map fst (set_arm_controller key v actions) = map fst actions.
Proof.
  unfold set_arm_controller. rewrite map_map. apply map_ext.
  intros [name a]. cbn [fst]. destruct (String.eqb name key); reflexivity.
Qed.

Lemma set_arm_controller_at_key (key v : string)
  (actions : list (string * ActionConfig)) (a : ActionConfig) :
  In (key, a) (set_arm_controller key v actions) -> ARM_CONTROLLER a = v.
Proof.
  unfold set_arm_controller. intros H. apply in_map_iff in H.
  destruct H as ([name a0] & E & _). cbn [fst] in E.
  destruct (String.eqb name key) eqn:K.
  - injection E as _ <-. reflexivity.
  - injection E as -> _. rewrite String.eqb_refl in K. discriminate.
Qed.

Lemma set_arm_controller_elsewhere (key v name : string)
  (actions : list (string * ActionConfig)) (a : ActionConfig) :
  name <> key ->
  In (name, a) (set_arm_controller key v actions) <-> In (name, a) actions.
Proof.
  intros Hne. unfold set_arm_controller. rewrite in_map_iff. split.
  - intros ([name0 a0] & E & Hin). cbn [fst] in E.
    destruct (String.eqb name0 key) eqn:K.
    + apply String.eqb_eq in K. injection E as E _. congruence.
    + rewrite <- E. exact Hin.
  - intros Hin. exists (name, a). split; [| exact Hin]. cbn [fst].
    destruct (String.eqb name key) eqn:K; [| reflexivity].
    apply String.eqb_eq in K. contradiction.
Qed.

(** X9.  What lines 510-535 hand to [habitat.Env]: [ValueError] is the
    only exception, raised exactly when [--add-ik] is given and the loaded
    configuration has no [ARM_ACTION]; otherwise each option leaves its
    own settings and no other: the task keeps its actions under their
    names, only the controller of [ARM_ACTION] changes and only under
    [--add-ik], and the sensors, the measurements and the episode length
    are the loaded ones with the additions of [--same-task] (absent),
    [--gfx] and [--never-end]. *)
Theorem configure_composes_overrides (w : World) (args : Args) :
  let loaded := get_config w (cfg args) (opts args) in
  (forall e : exn,
      configure w args = inl e <->
      e = ValueError /\ add_ik args = true
      /\ in_actions "ARM_ACTION" loaded = false)
  /\ forall config : Config, configure w args = inr config ->
       map fst (TASK_ACTIONS config) = map fst (TASK_ACTIONS loaded)
       /\ (add_ik args = false -> TASK_ACTIONS config = TASK_ACTIONS loaded)
       /\ (add_ik args = true ->
           in_actions "ARM_ACTION" config = true
           /\ (forall a : ActionConfig,
                  In ("ARM_ACTION"%string, a) (TASK_ACTIONS config) ->
                  ARM_CONTROLLER a = "ArmEEAction"%string)
           /\ (forall (name : string) (a : ActionConfig),
                  name <> "ARM_ACTION"%string ->
                  In (name, a) (TASK_ACTIONS config)
                  <-> In (name, a) (TASK_ACTIONS loaded)))
       /\ SIMULATOR_AGENT_0_SENSORS config
          = (SIMULATOR_AGENT_0_SENSORS loaded
               ++ if same_task args then []
                  else ["THIRD_RGB_SENSOR"%string])%list
       /\ TASK_MEASUREMENTS config
          = (TASK_MEASUREMENTS loaded
               ++ if gfx args then ["GFX_REPLAY_MEASURE"%string]
                  else [])%list
       /\ ENVIRONMENT_MAX_EPISODE_STEPS config
          = (if never_end args then 0%Z
             else ENVIRONMENT_MAX_EPISODE_STEPS loaded)
       /\ SIMULATOR_HABITAT_SIM_V0_ENABLE_GFX_REPLAY_SAVE config
          = (gfx args
             || SIMULATOR_HABITAT_SIM_V0_ENABLE_GFX_REPLAY_SAVE loaded)
       /\ SIMULATOR_DEBUG_RENDER config
          = (negb (same_task args) || SIMULATOR_DEBUG_RENDER loaded).
Proof.
  intros loaded.
  pose proof (in_actions_overrides w args) as Hin. cbv zeta in Hin.
  unfold configure. fold loaded in Hin |- *.
  split.
  - intros e. destruct (add_ik args).
    + rewrite Hin. destruct (in_actions "ARM_ACTION" loaded); cbn [negb].
      * split; [discriminate | intros (_ & _ & H); discriminate].
      * split; [intros H; injection H as <-; auto |].
        intros (-> & _). reflexivity.
    + split; [discriminate | intros (_ & H & _); discriminate].
  - intros config Hc.
    destruct (add_ik args) eqn:Hik.
    + rewrite Hin in Hc.
      destruct (in_actions "ARM_ACTION" loaded) eqn:Harm; cbn [negb] in Hc;
        [| discriminate].
      injection Hc as <-.
      destruct (same_task args), (gfx args), (never_end args);
        cbn [negb ik_overrides never_end_overrides gfx_overrides
             render_camera_overrides TASK_ACTIONS SIMULATOR_AGENT_0_SENSORS
             TASK_MEASUREMENTS ENVIRONMENT_MAX_EPISODE_STEPS
             SIMULATOR_HABITAT_SIM_V0_ENABLE_GFX_REPLAY_SAVE
             SIMULATOR_DEBUG_RENDER orb];
        rewrite ?app_nil_r;
        (split; [apply set_arm_controller_names |]);
        (split; [discriminate |]);
        (split;
         [intros _; split;
          [unfold in_actions in *;
           cbn [TASK_ACTIONS];
           rewrite existsb_exists in *;
           destruct Harm as ([name a] & Ha & Hk); cbn [fst] in Hk;
           exists (name, {| ARM_CONTROLLER := "ArmEEAction" |});
           split; [| exact Hk];
           unfold set_arm_controller; apply in_map_iff;
           exists (name, a); cbn [fst]; rewrite Hk; split;
           [reflexivity | exact Ha]
          | split;
            [intros a; apply set_arm_controller_at_key
            | intros name a; apply set_arm_controller_elsewhere]]
         |]);
        repeat split; reflexivity.
    + injection Hc as <-.
      destruct (same_task args), (gfx args), (never_end args);
        cbn [negb never_end_overrides gfx_overrides
             render_camera_overrides TASK_ACTIONS SIMULATOR_AGENT_0_SENSORS
             TASK_MEASUREMENTS ENVIRONMENT_MAX_EPISODE_STEPS
             SIMULATOR_HABITAT_SIM_V0_ENABLE_GFX_REPLAY_SAVE
             SIMULATOR_DEBUG_RENDER orb];
        rewrite ?app_nil_r;
        (split; [reflexivity |]);
        (split; [reflexivity |]);
        (split; [discriminate |]);
        repeat split; reflexivity.
Qed.

Lemma scatter_lengths (visited_list : list point) :
  List.length (scatter_x visited_list) = List.length visited_list
  /\ List.length (scatter_y visited_list) = List.length visited_list.
Proof. unfold scatter_x, scatter_y. rewrite !length_map. auto. Qed.

Lemma count_clear_bounds (sim : Simulator) (l : list point) :
  (0 <= count_clear sim l <= Z.of_nat (List.length l))%Z.
Proof.
  unfold count_clear.
  pose proof (filter_length_le (fun p => clear sim (robot_of p)) l). lia.
Qed.

(** X10.  What a completed run reports: the environment was built from
    the configuration of lines 510-535; the pickled list starts with the
    pose after [env.reset()] and the figure has one dot per entry of it;
    the pickled number of points is [None] exactly under the recording
    guard (and the list is then the start pose alone), otherwise it is the
    number of navigable, contact-free entries of the pickled list. *)
Theorem main_completed_report (fuel : nat) (w : World) (args : Args) :
  fst (main fuel w args) = Completed ->
  exists (config : Config) (total_point : option Z)
         (visited_list : list point),
    configure w args = inr config
    /\ snd (main fuel w args)
       = [EnvCreated config;
          Pickled pickle_path (difference w) total_point visited_list;
          FigureSaved figure_path (scatter_x visited_list)
            (scatter_y visited_list)]
    /\ hd_error visited_list = Some (point_of (snd (make_env w config)))
    /\ List.length (scatter_x visited_list) = List.length visited_list
    /\ List.length (scatter_y visited_list) = List.length visited_list
    /\ (total_point = None <-> early_exit args = true)
    /\ (early_exit args = true
        -> visited_list = [point_of (snd (make_env w config))])
    /\ (forall n : Z, total_point = Some n ->
          n = count_clear (fst (make_env w config)) visited_list
          /\ (0 <= n <= Z.of_nat (List.length visited_list))%Z).
Proof.
  unfold main.
  destruct (negb (has_pygame w) && negb (no_render args)); [discriminate |].
  destruct (configure w args) as [e | config]; [discriminate |].
  destruct (make_env w config) as [sim start] eqn:Hmk.
  pose proof (play_env_new_events (libm_pow_half w) sim args fuel 0 true
                (initial_state start)) as R.
  destruct (play_env _ _ _ _ _ _ _) as [[total_point | e |] s];
    try discriminate.
  cbn [fst snd] in R |- *. intros _.
  exists config, total_point, (visit_pos_rot s).
  rewrite Hmk. cbn [fst snd].
  pose proof (run_visit _ _ _ _ _ _ _ _ _ _ _ R) as Hv.
  cbn [initial_state visit_pos_rot robot] in Hv, R.
  split; [reflexivity |]. split; [reflexivity |].
  split; [rewrite Hv; reflexivity |].
  split; [apply scatter_lengths |]. split; [apply scatter_lengths |].
  split; [| split].
  - split.
    + intros ->. destruct (early_exit args) eqn:Hoff; [reflexivity |].
      destruct (run_number_or_fuel _ _ _ _ _ _ _ _ _ _ _ R Hoff)
        as [? | [n ?]]; discriminate.
    + intros Hon.
      destruct (run_guard_on _ _ _ _ _ _ _ _ _ _ _ R Hon)
        as (_ & _ & _ & [Ho | Ho]); congruence.
  - intros Hon.
    destruct (run_guard_on _ _ _ _ _ _ _ _ _ _ _ R Hon)
      as (_ & _ & Hv' & _). exact Hv'.
  - intros n ->.
    assert (E : n = count_clear sim (visit_pos_rot s)).
    { rewrite (run_count _ _ _ _ _ _ _ _ _ _ _ R n eq_refl).
      rewrite (count_clear_visit _ _ _ _ _ _ _ _ _ _ _ R).
      change [(vec2list (base_pos start), base_rot start)]
        with [point_of start].
      rewrite count_clear_singleton, andb_true_r.
      destruct (clear sim start); lia. }
    split; [exact E |]. rewrite E. apply count_clear_bounds.
Qed.


(** ** [get_input_vel_ctlr] *)

Lemma last_item_app (a : list Q) (x : Q) :
  last_item (a ++ [x]) = inr x.
Proof.
  destruct a as [| a0 a]; [reflexivity |].
  cbn [app last_item]. rewrite last_last. reflexivity.
Qed.

Lemma prefix_app (p s : string) : String.prefix p (p ++ s) = true.
Proof.
  induction p as [| c p IH]; cbn.
  - destruct s; reflexivity.
  - destruct (Ascii.ascii_dec c c) as [_ | N]; [exact IH | contradiction].
Qed.

Lemma string_app_assoc (a b c : string) :
  ((a ++ b) ++ c = a ++ (b ++ c))%string.
Proof. induction a as [| x a IH]; cbn; [| rewrite IH]; reflexivity. Qed.

Lemma prefix_agent_name (agent_k name : string) :
  String.prefix (agent_k ++ "_") (agent_k ++ "_" ++ name) = true.
Proof. rewrite <- string_app_assoc. apply prefix_app. Qed.

Ltac input_lookups env :=
  destruct (dict_get _ (action_space_spaces env)) as [?arm_spaces |];
    [| try discriminate];
    [destruct (dict_get _ arm_spaces) as [?shape |]; [| try discriminate];
     [destruct (dict_get _ (task_actions env)) as [[|] |];
      [| try discriminate | try discriminate]]].

Section InputFacts.

Variable Obs : Type.
Variable env_step : step_request -> Obs.

(** X12.  The arm action that a call returns can be fed back: the next
    call, without base action, sends the arm vector of the first call with
    the grip [0.0].  The returned arm action is the one used with [0.0]
    appended, so it grows by one entry with every call. *)
Theorem get_input_vel_ctlr_feeds_back
  (env : InputEnv) (not_block_input not_block_input' : bool)
  (agent_to_control : Z) (arm_action base_action : option (list Q))
  (obs : Obs) (returned : option (list Q)) (end_ep : bool) :
  get_input_vel_ctlr Obs env_step false arm_action env not_block_input
    agent_to_control base_action
  = inr (obs, returned, end_ep) ->
  end_ep = false
  /\ exists a : list Q,
       returned = Some (a ++ [0])
       /\ match arm_action with
          | Some given => a = given
          | None => exists n : nat, a = repeat 0 n
          end
       /\ get_input_vel_ctlr Obs env_step false returned env
            not_block_input' agent_to_control None
          = inr (step_env Obs env_step
                   (agent_name env agent_to_control "ARM_ACTION")
                   [(agent_name env agent_to_control "arm_action",
                     ArgVector a);
                    (agent_name env agent_to_control "grip_action",
                     ArgNumber 0)],
                 Some ((a ++ [0]) ++ [0]), false).
Proof.
  unfold get_input_vel_ctlr, agent_name. cbv zeta.
  destruct (1 <? robots_mgr env)%nat; input_lookups env;
    (destruct arm_action as [given |];
     [| destruct shape as [| shape0 ?]; [discriminate |]];
     cbn [arm_action_or_zeros];
     (destruct base_action as [b |];
      [destruct (dict_has _ (action_space_spaces env)) |]);
     try (destruct (last_item given) as [e | grip]; [discriminate |]);
     intros H; injection H as <- <- <-;
     (split; [reflexivity |]);
     eexists; (split; [reflexivity |]);
     (split; [try reflexivity; try (eexists; reflexivity) |]);
     cbn [arm_action_or_zeros];
     rewrite last_item_app, removelast_last; reflexivity).
Qed.

(** X13.  A base action overrides the arm action: when [base_action] is
    given and the action space has the base velocity, a call that returns
    has sent the base action and nothing of the arm action, and the same
    request is sent whatever the arm action, the empty list included;
    without base action the empty arm action is an [IndexError]. *)
Theorem get_input_vel_ctlr_base_action_overrides
  (env : InputEnv) (not_block_input : bool) (agent_to_control : Z)
  (arm_action : option (list Q)) (b : list Q)
  (obs : Obs) (returned : option (list Q)) (end_ep : bool) :
  dict_has (agent_name env agent_to_control "BASE_VELOCITY")
    (action_space_spaces env) = true ->
  get_input_vel_ctlr Obs env_step false arm_action env not_block_input
    agent_to_control (Some b)
  = inr (obs, returned, end_ep) ->
  obs = step_env Obs env_step
          (agent_name env agent_to_control "BASE_VELOCITY")
          [(agent_name env agent_to_control "base_vel", ArgVector b)]
  /\ (forall given : list Q,
        get_input_vel_ctlr Obs env_step false (Some given) env
          not_block_input agent_to_control (Some b)
        = inr (obs, Some (given ++ [0]), false))
  /\ get_input_vel_ctlr Obs env_step false (Some []) env not_block_input
       agent_to_control None
     = inl IndexError.
Proof.
  unfold get_input_vel_ctlr, agent_name. cbv zeta.
  destruct (1 <? robots_mgr env)%nat; intros Hbase; rewrite Hbase;
    input_lookups env;
    (destruct arm_action as [given |];
     [| destruct shape as [| shape0 ?]; [discriminate |]];
     cbn [arm_action_or_zeros];
     intros H; injection H as <- <- <-;
     repeat split; reflexivity).
Qed.

(** X14.  The arm action is needed even to send a base action: unless
    [skip_pygame] is set, a call on an environment whose action space has
    no arm action raises the [KeyError] of line 145, whatever the arm and
    the base action given. *)
Theorem get_input_vel_ctlr_needs_arm_action
  (env : InputEnv) (not_block_input : bool) (agent_to_control : Z)
  (arm_action base_action : option (list Q)) :
  dict_get (agent_name env agent_to_control "ARM_ACTION")
    (action_space_spaces env) = None ->
  get_input_vel_ctlr Obs env_step false arm_action env not_block_input
    agent_to_control base_action
  = inl (KeyError (agent_name env agent_to_control "ARM_ACTION"))
  /\ get_input_vel_ctlr Obs env_step true arm_action env not_block_input
       agent_to_control base_action
     = inr (step_env Obs env_step "EMPTY" [], None, false).
Proof.
  unfold get_input_vel_ctlr, agent_name. cbv zeta.
  destruct (1 <? robots_mgr env)%nat; intros ->; split; reflexivity.
Qed.

(** X15.  With more than one robot, every name of the request sent is
    that of the agent to control: the action and each key of its
    arguments begin with [AGENT_<agent_to_control>_]. *)
Theorem get_input_vel_ctlr_agent_prefix
  (env : InputEnv) (not_block_input : bool) (agent_to_control : Z)
  (arm_action base_action : option (list Q))
  (obs : Obs) (returned : option (list Q)) (end_ep : bool) :
  (1 < robots_mgr env)%nat ->
  get_input_vel_ctlr Obs env_step false arm_action env not_block_input
    agent_to_control base_action
  = inr (obs, returned, end_ep) ->
  exists request : step_request,
    obs = env_step request
    /\ String.prefix ("AGENT_" ++ py_str agent_to_control ++ "_")
         (action request) = true
    /\ Forall (fun kv =>
                 String.prefix ("AGENT_" ++ py_str agent_to_control ++ "_")
                   (fst kv) = true)
         (action_args request).
Proof.
  intros Hmulti. apply Nat.ltb_lt in Hmulti.
  rewrite <- (string_app_assoc "AGENT_" (py_str agent_to_control) "_").
  unfold get_input_vel_ctlr. cbv zeta. rewrite Hmulti.
  input_lookups env;
    (destruct arm_action as [given |];
     [| destruct shape as [| shape0 ?]; [discriminate |]];
     cbn [arm_action_or_zeros];
     (destruct base_action as [b |];
      [destruct (dict_has _ (action_space_spaces env)) |]);
     try (destruct (last_item given) as [e | grip]; [discriminate |]);
     intros H; injection H as <- <- <-;
     eexists; (split; [reflexivity |]);
     cbn [action action_args];
     (split; [apply prefix_agent_name |]);
     repeat constructor; cbn [fst]; apply prefix_agent_name).
Qed.


End InputFacts.

(** ** [get_wrapped_prop] *)

(** Induction on a Python value, with the property for every attribute
    value of an object. *)
Lemma pyobj_induction (P : pyobj -> Prop) :
  P PyNone ->
  (forall id : Z, P (PyValue id)) ->
  (forall attrs : list (string * pyobj),
      Forall (fun kv => P (snd kv)) attrs -> P (PyObject attrs)) ->
  forall v : pyobj, P v.
Proof.
  intros HN HV HO.
  fix IH 1. intros [| id | attrs].
  - exact HN.
  - exact (HV id).
  - apply HO. induction attrs as [| [k v] attrs IHattrs].
    + constructor.
    + constructor; [exact (IH v) | exact IHattrs].
Qed.

(** The function as the source writes it. *)
Lemma get_wrapped_prop_object (attrs : list (string * pyobj))
  (prop : string) :
  get_wrapped_prop (PyObject attrs) prop
  = match dict_get prop attrs with
    | Some v => v
    | None =>
        match dict_get "venv" attrs with
        | Some venv => get_wrapped_prop venv prop
        | None =>
            match dict_get "env" attrs with
            | Some env => get_wrapped_prop env prop
            | None => PyNone
            end
        end
    end.
Proof.
  cbn [get_wrapped_prop].
  destruct (dict_get prop attrs) as [v |]; [reflexivity |].
  assert (E : forall name : string,
             (fix recurse_into (name : string) (l : list (string * pyobj))
                {struct l} : option pyobj :=
                match l with
                | [] => None
                | (k, v) :: l' =>
                    if String.eqb k name then Some (get_wrapped_prop v prop)
                    else recurse_into name l'
                end) name attrs
             = option_map (fun v => get_wrapped_prop v prop)
                 (dict_get name attrs)).
  { intros name. induction attrs as [| [k v] attrs IH]; [reflexivity |].
    cbn [dict_get]. destruct (String.eqb k name); [reflexivity | exact IH]. }
  rewrite !E.
  destruct (dict_get "venv" attrs); [reflexivity |].
  destruct (dict_get "env" attrs); reflexivity.
Qed.

Lemma dict_get_in {A : Type} (key : string) (d : list (string * A)) (v : A) :
  dict_get key d = Some v -> In (key, v) d.
Proof.
  induction d as [| [k x] d IH]; [discriminate |].
  cbn [dict_get]. destruct (String.eqb k key) eqn:K.
  - intros H. injection H as ->. apply String.eqb_eq in K. subst k.
    left. reflexivity.
  - intros H. right. exact (IH H).
Qed.

(** X17.  Wrappers are transparent: under any stack of layers that hold
    the next object under [venv], or under [env] without a [venv]
    beside, and have no attribute [prop], the result is that of the
    innermost object. *)
Theorem get_wrapped_prop_through_wrappers
  (layers : list (string * list (string * pyobj))) (inner : pyobj)
  (prop : string) :
  Forall (transparent prop) layers ->
  get_wrapped_prop (wrap_all layers inner) prop
  = get_wrapped_prop inner prop.
Proof.
  induction 1 as [| [name others] layers (Hno & Hne & Hname) _ IH];
    [reflexivity |].
  cbn [wrap_all fold_right fst snd] in *. fold (wrap_all layers inner).
  unfold wrap. rewrite get_wrapped_prop_object. cbn [dict_get].
  apply String.eqb_neq in Hne. rewrite Hne, Hno.
  destruct Hname as [-> | [-> Hvenv]].
  - rewrite String.eqb_refl. exact IH.
  - cbn [String.eqb Ascii.eqb Bool.eqb]. rewrite Hvenv.
    exact IH.
Qed.

(** X18.  What the search returns: it follows [venv], and [env] only
    where there is no [venv], through objects without [prop]; the result
    is the value of [prop] in the first object that has it, and [None]
    only where the chain ends in a value with none of the three
    attributes. *)
Theorem get_wrapped_prop_first_holder (v : pyobj) (prop : string) :
  exists o : pyobj,
    unwraps_to prop v o
    /\ match attr o prop with
       | Some r => get_wrapped_prop v prop = r
       | None =>
           get_wrapped_prop v prop = PyNone
           /\ attr o "venv" = None /\ attr o "env" = None
       end.
Proof.
  induction v as [| id | attrs IH] using pyobj_induction.
  - exists PyNone. split; [constructor | cbn; auto].
  - exists (PyValue id). split; [constructor | cbn; auto].
  - rewrite get_wrapped_prop_object.
    destruct (dict_get prop attrs) as [r |] eqn:Hprop.
    + exists (PyObject attrs). split; [constructor |].
      cbn [attr]. rewrite Hprop. reflexivity.
    + rewrite Forall_forall in IH.
      destruct (dict_get "venv" attrs) as [venv |] eqn:Hvenv.
      * destruct (IH _ (dict_get_in _ _ _ Hvenv)) as (o & Ho & Hr).
        exists o. split; [| exact Hr].
        apply (unwraps_venv prop (PyObject attrs) venv o); assumption.
      * destruct (dict_get "env" attrs) as [env |] eqn:Henv.
        -- destruct (IH _ (dict_get_in _ _ _ Henv)) as (o & Ho & Hr).
           exists o. split; [| exact Hr].
           apply (unwraps_env prop (PyObject attrs) env o); assumption.
        -- exists (PyObject attrs). split; [constructor |].
           cbn [attr]. rewrite Hprop, Hvenv, Henv. auto.
Qed.

(** ** [FreeCamHelper] *)

Section FreeCamFacts.

Variable Obs : Type.
Variable Env : Type.
Variable Transformation : Type.
Variable transformation_from : list3 -> list3 -> Transformation.
Variable set_third_rgb_transformation : Transformation -> Env -> Env.
Variable get_sensor_observations : Env -> Obs.

Local Abbreviation update_of :=
  (update Obs Env Transformation transformation_from
     set_third_rgb_transformation get_sensor_observations).
Local Abbreviation updates_of :=
  (updates Obs Env Transformation transformation_from
     set_third_rgb_transformation get_sensor_observations).
Local Abbreviation switches_of :=
  (switches Obs Env Transformation transformation_from
     set_third_rgb_transformation get_sensor_observations).

(** The mode and the index of the last switch after one call. *)
Lemma update_mode (self : FreeCamHelper) (keys : key -> bool) (env : Env)
  (step_result : Obs) (update_idx : Z) :
  let self' := fst (fst (update_of self keys env step_result update_idx)) in
  let toggles := keys K_z && (update_idx - _last_pressed self >? 60)%Z in
  _is_free_cam_mode self'
  = (if toggles then negb (_is_free_cam_mode self)
     else _is_free_cam_mode self)
  /\ _last_pressed self'
     = (if toggles then update_idx else _last_pressed self).
Proof.
  unfold update. cbv zeta.
  destruct (keys K_z && (update_idx - _last_pressed self >? 60)%Z),
    (_is_free_cam_mode self); cbn; auto.
Qed.

(** X19.  The switch of the camera mode is debounced: in any sequence of
    calls of [update], whatever the keys and the update indices, a switch
    happens only with [z] down and more than 60 updates after the
    previous switch (after the index stored in the helper, for the first
    one); the mode at the end is the mode at the start, flipped once per
    switch. *)
Theorem update_switches_debounced (self : FreeCamHelper)
  (calls : list ((key -> bool) * Env * Obs * Z)) :
  gaps_above_60 (_last_pressed self) (switches_of self calls)
  /\ is_free_cam_mode (updates_of self calls)
     = (if Nat.even (List.length (switches_of self calls))
        then is_free_cam_mode self
        else negb (is_free_cam_mode self))
  /\ Forall (fun update_idx =>
               exists (keys : key -> bool) (env : Env) (step_result : Obs),
                 In (keys, env, step_result, update_idx) calls
                 /\ keys K_z = true)
       (switches_of self calls).
Proof.
  revert self.
  induction calls as [| [[[keys env] step_result] update_idx] calls IH];
    intros self.
  - cbn. auto.
  - cbn [switches updates].
    pose proof (update_mode self keys env step_result update_idx) as Hm.
    cbv zeta in Hm. destruct Hm as [Hmode Hlast].
    destruct (IH (fst (fst (update_of self keys env step_result
                              update_idx)))) as (Hgaps & Hpar & Hz).
    assert (Hz' : Forall (fun update_idx0 =>
                    exists (keys0 : key -> bool) (env0 : Env)
                           (step_result0 : Obs),
                      In (keys0, env0, step_result0, update_idx0)
                        ((keys, env, step_result, update_idx) :: calls)
                      /\ keys0 K_z = true)
                    (switches_of
                       (fst (fst (update_of self keys env step_result
                                    update_idx))) calls)).
    { eapply Forall_impl; [| exact Hz].
      intros x (k0 & e0 & o0 & Hin & Hk). exists k0, e0, o0.
      split; [right; exact Hin | exact Hk]. }
    unfold is_free_cam_mode in *. rewrite Hpar, Hmode. rewrite Hlast in Hgaps.
    destruct (keys K_z) eqn:Kz; cbn [andb] in *.
    + destruct (update_idx - _last_pressed self >? 60)%Z eqn:Hgt.
      * rewrite eqb_negb1. cbn [gaps_above_60 List.length].
        rewrite Nat.even_succ, <- Nat.negb_even.
        split; [split; [lia | exact Hgaps] |].
        split.
        -- destruct (Nat.even _), (_is_free_cam_mode self); reflexivity.
        -- constructor; [| exact Hz'].
           exists keys, env, step_result. split; [left; reflexivity | exact Kz].
      * rewrite eqb_reflx. auto.
    + rewrite eqb_reflx. auto.
Qed.

Lemma offset_rpy_of_unit_step (keys : key -> bool) :
  In (scale3 (1 # 10) (offset_rpy_of keys)) unit_steps.
Proof.
  unfold offset_rpy_of, unit_steps. cbv zeta.
  destruct (keys K_u), (keys K_o), (keys K_i), (keys K_k), (keys K_j),
    (keys K_l); cbn [In]; auto 10.
Qed.

Lemma offset_xyz_of_unit_step (keys : key -> bool) :
  In (scale3 (1 # 10) (offset_xyz_of keys)) unit_steps.
Proof.
  unfold offset_xyz_of, unit_steps. cbv zeta.
  destruct (keys K_q), (keys K_e), (keys K_w), (keys K_s), (keys K_a),
    (keys K_d); cbn [In]; auto 10.
Qed.

(** X20.  One call of [update].  Out of free camera mode the environment,
    the camera pose and the observations are left as they were.  In free
    camera mode the camera is set to the pose that the helper now stores
    and the observations returned are taken after that; the stored pose
    has moved by one tenth along at most one rotation axis and at most
    one translation axis, however many keys are down, or is reset to
    zero when [b] is down. *)
Theorem update_moves_one_step (self : FreeCamHelper) (keys : key -> bool)
  (env : Env) (step_result : Obs) (update_idx : Z) :
  let '(self', env', step_result') :=
    update_of self keys env step_result update_idx in
  if is_free_cam_mode self' then
    env' = set_third_rgb_transformation
             (transformation_from (_free_rpy self') (_free_xyz self')) env
    /\ step_result' = get_sensor_observations env'
    /\ (if keys K_b
        then _free_rpy self' = zeros3 /\ _free_xyz self' = zeros3
        else exists offset_rpy offset_xyz : list3,
               In offset_rpy unit_steps /\ In offset_xyz unit_steps
               /\ _free_rpy self' = add3 (_free_rpy self) offset_rpy
               /\ _free_xyz self' = add3 (_free_xyz self) offset_xyz)
  else
    env' = env /\ step_result' = step_result
    /\ _free_rpy self' = _free_rpy self
    /\ _free_xyz self' = _free_xyz self.
Proof.
  unfold update, is_free_cam_mode. cbv zeta.
  destruct (if keys K_z && (update_idx - _last_pressed self >? 60)%Z
            then negb (_is_free_cam_mode self)
            else _is_free_cam_mode self);
    cbn [_is_free_cam_mode _free_rpy _free_xyz]; [| auto].
  split; [reflexivity |]. split; [reflexivity |].
  destruct (keys K_b); [auto |].
  exists (scale3 (1 # 10) (offset_rpy_of keys)),
         (scale3 (1 # 10) (offset_xyz_of keys)).
  split; [apply offset_rpy_of_unit_step |].
  split; [apply offset_xyz_of_unit_step |]. auto.
Qed.


End FreeCamFacts.

(** ** The added properties on the sample inputs *)

Lemma in_by_point_eqb (p : point) (l : list point) :
  existsb (Sample.point_eqb p) l = true -> In p l.
Proof.
  intros H. apply existsb_exists in H. destruct H as (q & Hq & E).
  apply point_eqb_eq in E. rewrite E. exact Hq.
Qed.

(** X6 on the room: 16 clear poses, 33 calls, 32 integrations. *)
Lemma play_env_cost_witness :
  fst (room_run 40) = Ret (Some 16%Z)
  /\ (0 <= 16)%Z
  /\ Z.of_nat (count_calls
                 (new_events (initial_state Sample.origin)
                    (snd (room_run 40)))) = (2 * 16 + 1)%Z
  /\ Z.of_nat (count_integrations
                 (new_events (initial_state Sample.origin)
                    (snd (room_run 40)))) = (2 * 16)%Z.
Proof.
  split; [exact room_run_40 |].
  exact (play_env_cost Sample.pow_half (Sample.room 1 1) 40
           Sample.default_args 0 true (initial_state Sample.origin)
           16%Z room_run_40).
Defined.

(** X7 on the room: the rotation tried at the start pose is covered. *)
Lemma play_env_exhaustive_witness :
  fst (room_run 40) = Ret (Some 16%Z)
  /\ covered Sample.pow_half (visit_pos_rot (snd (room_run 40)))
       (moved (Sample.room 1 1) (robot_of (point_of Sample.origin))
          (0, 1)%Z).
Proof.
  split; [exact room_run_40 |].
  apply (play_env_exhaustive Sample.pow_half (Sample.room 1 1) 40
           Sample.default_args Sample.origin 16%Z room_run_40).
  - apply in_by_point_eqb. vm_compute. reflexivity.
  - vm_compute. reflexivity.
  - cbn. auto.
Defined.

(** X8 on the room: the first point appended is one rotation away from
    the start pose. *)
Lemma play_env_appends_reachable_poses_witness :
  In (point_of (moved (Sample.room 1 1) Sample.origin (0, 1)%Z))
    (appended (new_events (initial_state Sample.origin)
                 (snd (room_run 40))))
  /\ exists (r0 : Robot) (a : Z * Z),
       In a base_actions /\ clear (Sample.room 1 1) r0 = true
       /\ point_of (moved (Sample.room 1 1) Sample.origin (0, 1)%Z)
          = point_of (moved (Sample.room 1 1) r0 a)
       /\ (r0 = robot (initial_state Sample.origin)
           \/ In (point_of r0)
                (appended (new_events (initial_state Sample.origin)
                             (snd (room_run 40))))).
Proof.
  assert (H : In (point_of (moved (Sample.room 1 1) Sample.origin (0, 1)%Z))
                (appended (new_events (initial_state Sample.origin)
                 (snd (room_run 40)))))
    by (apply in_by_point_eqb; vm_compute; reflexivity).
  split; [exact H |].
  exact (play_env_appends_reachable_poses Sample.pow_half (Sample.room 1 1)
           40 Sample.default_args 0 true (initial_state Sample.origin)
           (point_of (moved (Sample.room 1 1) Sample.origin (0, 1)%Z)) H).
Defined.

(** X10 on the sample machine. *)
Lemma main_completed_report_witness :
  fst (main 40 Sample.world Sample.default_args) = Completed
  /\ exists (config : Config) (total_point : option Z)
            (visited_list : list point),
       configure Sample.world Sample.default_args = inr config
       /\ snd (main 40 Sample.world Sample.default_args)
          = [EnvCreated config;
             Pickled pickle_path (difference Sample.world) total_point
               visited_list;
             FigureSaved figure_path (scatter_x visited_list)
               (scatter_y visited_list)]
       /\ hd_error visited_list
          = Some (point_of (snd (make_env Sample.world config)))
       /\ List.length (scatter_x visited_list) = List.length visited_list
       /\ List.length (scatter_y visited_list) = List.length visited_list
       /\ (total_point = None <-> early_exit Sample.default_args = true)
       /\ (early_exit Sample.default_args = true
           -> visited_list = [point_of (snd (make_env Sample.world config))])
       /\ (forall n : Z, total_point = Some n ->
             n = count_clear (fst (make_env Sample.world config))
                   visited_list
             /\ (0 <= n <= Z.of_nat (List.length visited_list))%Z).
Proof.
  assert (H : fst (main 40 Sample.world Sample.default_args) = Completed)
    by (vm_compute; reflexivity).
  split; [exact H |].
  exact (main_completed_report 40 Sample.world Sample.default_args H).
Defined.

(** ** The helpers on the sample inputs

    [env.step] returns the request it was given. *)

Abbreviation sample_input :=
  (get_input_vel_ctlr step_request (fun request => request)).

(** X12 on the manipulation task: the zeros of the first call come back
    with the grip [0.0]. *)
Lemma get_input_vel_ctlr_feeds_back_witness :
  sample_input false None SampleInput.spot_env true 0 None
  = inr ({| action := "ARM_ACTION";
            action_args := [("arm_action"%string, ArgVector (repeat 0 7));
                            ("grip_action"%string, ArgNone)] |},
         Some (repeat 0 7 ++ [0]), false)
  /\ sample_input false (Some (repeat 0 7 ++ [0])) SampleInput.spot_env
       false 0 None
     = inr ({| action := "ARM_ACTION";
               action_args := [("arm_action"%string, ArgVector (repeat 0 7));
                               ("grip_action"%string, ArgNumber 0)] |},
            Some ((repeat 0 7 ++ [0]) ++ [0]), false).
Proof.
  split; [reflexivity |].
  destruct (get_input_vel_ctlr_feeds_back step_request
              (fun request => request) SampleInput.spot_env true false 0
              None None
              {| action := "ARM_ACTION";
                 action_args :=
                   [("arm_action"%string, ArgVector (repeat 0 7));
                    ("grip_action"%string, ArgNone)] |}
              (Some (repeat 0 7 ++ [0])) false eq_refl)
    as (_ & a & Ha & _ & Hnext).
  assert (E : repeat 0 7 ++ [0] = a ++ [0]) by congruence.
  apply (app_inj_tail (repeat 0 7) a 0 0) in E. destruct E as [<- _].
  exact Hnext.
Defined.

(** X13 on the manipulation task. *)
Lemma get_input_vel_ctlr_base_action_overrides_witness :
  sample_input false (Some []) SampleInput.spot_env true 0 (Some [1; 0])
  = inr ({| action := "BASE_VELOCITY";
            action_args := [("base_vel"%string, ArgVector [1; 0])] |},
         Some [0], false)
  /\ sample_input false (Some []) SampleInput.spot_env true 0 None
     = inl IndexError.
Proof.
  split; [reflexivity |].
  exact (proj2 (proj2
           (get_input_vel_ctlr_base_action_overrides step_request
              (fun request => request) SampleInput.spot_env true 0
              (Some []) [1; 0] _ _ _ eq_refl eq_refl))).
Defined.

(** X14 on the navigation task of [DEFAULT_CFG]. *)
Lemma get_input_vel_ctlr_needs_arm_action_witness :
  dict_has "BASE_VELOCITY" (action_space_spaces SampleInput.nav_env) = true
  /\ sample_input false None SampleInput.nav_env true 0 (Some [1; 0])
     = inl (KeyError "ARM_ACTION").
Proof.
  split; [reflexivity |].
  exact (proj1
           (get_input_vel_ctlr_needs_arm_action step_request
              (fun request => request) SampleInput.nav_env true 0
              None (Some [1; 0]) eq_refl)).
Defined.

(** X15 on the task with two robots, for the second one. *)
Lemma get_input_vel_ctlr_agent_prefix_witness :
  sample_input false None SampleInput.two_agents_env true 1 (Some [1; 0])
  = inr ({| action := "AGENT_1_BASE_VELOCITY";
            action_args := [("AGENT_1_base_vel"%string, ArgVector [1; 0])] |},
         Some (repeat 0 7 ++ [0]), false)
  /\ exists request : step_request,
       {| action := "AGENT_1_BASE_VELOCITY";
          action_args := [("AGENT_1_base_vel"%string, ArgVector [1; 0])] |}
       = request
       /\ String.prefix "AGENT_1_" (action request) = true
       /\ Forall (fun kv => String.prefix "AGENT_1_" (fst kv) = true)
            (action_args request).
Proof.
  split; [reflexivity |].
  exact (get_input_vel_ctlr_agent_prefix step_request
           (fun request => request) SampleInput.two_agents_env true 1
           None (Some [1; 0]) _ _ _ (le_n 2) eq_refl).
Defined.


(** X17 on the simulator wrapped twice. *)
Lemma get_wrapped_prop_through_wrappers_witness :
  get_wrapped_prop SampleInput.wrapped_env "sim" = SampleInput.sim_object.
Proof.
  unfold SampleInput.wrapped_env.
  rewrite (get_wrapped_prop_through_wrappers
             [("venv"%string, [("num_envs"%string, PyValue 1)]);
              ("env"%string, [])]
             (PyObject [("sim"%string, SampleInput.sim_object);
                        ("env"%string, PyNone)])
             "sim").
  - reflexivity.
  - apply Forall_cons; [| apply Forall_cons; [| apply Forall_nil]].
    + split; [reflexivity | split; [discriminate | left; reflexivity]].
    + split; [reflexivity |].
      split; [discriminate | right; split; reflexivity].
Defined.

